(** * fife-rpg: registration of components and systems, entity set-up,
      the look action and the game scene

    A shallow embedding of
    - [fife_rpg/components/base.py] and [fife_rpg/systems/base.py]
      (class [Base]: [registered_as], [register], [setup]),
    - [fife_rpg/actions/look.py] (class [LookAction]),
    - [fife_rpg/game_scene.py] ([SimpleOutliner], [GameSceneListener],
      [GameSceneController]),
    followed by the properties the specification states about them.

    Python classes are represented by identifiers; the class attributes
    the code writes at run time live in an explicit store, dictionaries
    are finite maps, exceptions are values of a result type and printing
    appends to a trace. *)

From Stdlib Require Import Ascii String.
From stdpp Require Import base option list gmap sets strings.

Open Scope string_scope.
Open Scope nat_scope.

(** ** Python values used by the code *)

(** Identity of a class object. *)
Definition cid := nat.

(** The two families of registered types: subclasses of
    [components.base.Base] and of [systems.base.Base]. *)
Inductive Kind := Component | System.

#[global] Instance Kind_eq_dec : EqDecision Kind.
Proof. solve_decision. Defined.

(** The exceptions that occur in the modelled code. [TypeError] and
    [AttributeError] are raised by the interpreter itself (a call with a
    missing argument, the instantiation of an abstract class, [getattr]
    with a name that is not a string or that the object does not have);
    [OtherError] stands for any other exception of a constructor or of a
    follow-up command. *)
Inductive Exn :=
| AlreadyRegisteredError (name : string) (what : Kind)
| NotRegisteredError (what : string)
| TypeError
| AttributeError (name : string)
| OtherError (what : string).

(** Outcome of a call: a returned value or a raised exception. *)
Inductive Result (A : Type) :=
| Ret (a : A)
| Raise (e : Exn).
Arguments Ret {A} a.
Arguments Raise {A} e.

Definition bind {A B} (r : Result A) (k : A -> Result B) : Result B :=
  match r with
  | Ret a => k a
  | Raise e => Raise e
  end.

(** What the process writes and triggers, in order. *)
Inductive Event :=
| PrintExn (e : Exn)          (* [print error] *)
| PrintStr (s : string)       (* [print "..."] *)
| RunCommand (c : string).    (* a follow-up command handed to the controller *)

(** The values of [*args, **kwargs], which the code only passes on. *)
Abbreviation Args := (list nat).

(** ** Classes

    What [Base.register] sees of a registered type. The static attributes
    are given as Python resolves them on the class, its own or inherited:
    - [kind]: which [Base] it derives from;
    - [mro]: its ancestors among the registered types, nearest first (the
      method resolution order between the class and [Base]), along which
      the attribute that [register] assigns at run time is looked up;
    - [construct]: the exception raised by [cls( *args, **kwargs)], if
      any ([cls()] for a component);
    - [default_name]: the default of the [name] parameter when
      [cls.register] is an override such as that of [LookAction]
      ([def register(cls, name="Look")]); [None] when it is
      [Base.register(cls, name)], whose [name] has no default;
    - [dependencies]: the public class attribute [dependencies = [...]],
      as [look.py] declares it;
    - [private_dependencies]: the attribute [_Base__dependencies], which
      is what [cls.__dependencies] inside [Base] denotes (names with two
      leading underscores are private to the class body they occur in).
      [None] when no class but [Base] defines it, in which case the
      lookup finds [Base.__dependencies = []]. *)
Record PyClass := {
  kind : Kind;
  mro : list cid;
  construct : Args → option Exn;
  default_name : option string;
  dependencies : list cid;
  private_dependencies : option (list cid)
}.

(** A class that overrides nothing: [class X(Base): pass]. A component
    is created without further ado; a system is abstract as long as it
    does not define [step], and instantiating it raises [TypeError]. *)
Definition plain_class (k : Kind) : PyClass :=
  {| kind := k; mro := [];
     construct := λ _, match k with
                       | Component => None
                       | System => Some TypeError
                       end;
     default_name := None;
     dependencies := []; private_dependencies := None |}.

(** The classes of the program. An identifier that is not listed stands
    for a plain component class. *)
Abbreviation ClassTable := (gmap cid PyClass).

Definition class_of (ct : ClassTable) (cls : cid) : PyClass :=
  default (plain_class Component) (ct !! cls).

(** [cls.__dependencies] as read inside [Base.register]. *)
Definition Base__dependencies (ct : ClassTable) (cls : cid) : list cid :=
  default [] (private_dependencies (class_of ct cls)).

(** ** Process state *)

(** [components] and [systems] are the tables of [ComponentManager] and
    [SystemManager] (name to registered instance; an instance is
    represented by its class). [registered_name] holds the class attribute
    [_Base__registered_as] of the classes on which it has been
    assigned. *)
Record State := {
  components : gmap string cid;
  systems : gmap string cid;
  registered_name : gmap cid string;
  trace : list Event
}.

Definition initial_state : State :=
  {| components := ∅; systems := ∅; registered_name := ∅; trace := [] |}.

Definition registry (k : Kind) (σ : State) : gmap string cid :=
  match k with
  | Component => components σ
  | System => systems σ
  end.

Definition set_registry (k : Kind) (r : gmap string cid) (σ : State) : State :=
  match k with
  | Component =>
      {| components := r; systems := systems σ;
         registered_name := registered_name σ; trace := trace σ |}
  | System =>
      {| components := components σ; systems := r;
         registered_name := registered_name σ; trace := trace σ |}
  end.

(** [cls.__registered_as = name]: the attribute is set on [cls]
    itself. *)
Definition set_registered_as (cls : cid) (name : string) (σ : State) : State :=
  {| components := components σ; systems := systems σ;
     registered_name := <[cls := name]> (registered_name σ);
     trace := trace σ |}.

Definition emit (ev : Event) (σ : State) : State :=
  {| components := components σ; systems := systems σ;
     registered_name := registered_name σ;
     trace := trace σ ++ [ev] |}.

(** The attribute [_Base__registered_as] found along [classes]: that of
    the first class on which it has been assigned; [None], the value in
    [Base], when there is none. *)
Fixpoint first_registered (σ : State) (classes : list cid) : option string :=
  match classes with
  | [] => None
  | c :: rest =>
      match registered_name σ !! c with
      | Some name => Some name
      | None => first_registered σ rest
      end
  end.

(** The class property [registered_as]: the value of
    [cls.__registered_as], looked up on the class and then on its
    ancestors. *)
Definition registered_as (ct : ClassTable) (σ : State) (cls : cid)
    : option string :=
  first_registered σ (cls :: mro (class_of ct cls)).

(** Truth value of [registered_as] in [if not cls.registered_as]:
    [None] and the empty string are false. *)
Definition truthy (v : option string) : bool :=
  match v with
  | Some s => negb (String.eqb s "")
  | None => false
  end.

(** ** The managers *)

(** Modelled from the spec: [ComponentManager.register_component]
    ([fife_rpg/components/__init__.py] is not among the sources). It
    fails with [AlreadyRegisteredError] if [name] is already bound and
    binds [name] to the instance otherwise. Recording the name on the
    registered type is done by [Base.register] below. *)
Definition register_component (name : string) (inst : cid)
    (table : gmap string cid) : Result (gmap string cid) :=
  match table !! name with
  | Some _ => Raise (AlreadyRegisteredError name Component)
  | None => Ret (<[name := inst]> table)
  end.

(** Modelled from the spec: [SystemManager.register_system]
    ([fife_rpg/systems/__init__.py] is not among the sources), with the
    same contract on the table of systems. *)
Definition register_system (name : string) (inst : cid)
    (table : gmap string cid) : Result (gmap string cid) :=
  match table !! name with
  | Some _ => Raise (AlreadyRegisteredError name System)
  | None => Ret (<[name := inst]> table)
  end.

(** ** [Base.register] *)

(** The loop
    [for dependency in cls.__dependencies:
         if not dependency.registered_as: dependency.register()]
    with [call] standing for the dynamically dispatched
    [dependency.register(name)]. [dependency.register()] passes no name
    and no further argument: it raises [TypeError] unless the
    dependency's class supplies a default name. The value returned by
    the call is dropped; an exception leaves the loop. [None] means the
    nested call did not finish. *)
Fixpoint register_dependencies
    (call : cid -> string -> State -> option (Result bool * State))
    (ct : ClassTable) (deps : list cid) (σ : State)
    : option (Result unit * State) :=
  match deps with
  | [] => Some (Ret tt, σ)
  | dependency :: rest =>
      if truthy (registered_as ct σ dependency) then
        register_dependencies call ct rest σ
      else
        match default_name (class_of ct dependency) with
        | None => Some (Raise TypeError, σ)
        | Some name =>
            match call dependency name σ with
            | None => None
            | Some (Ret _, σ') => register_dependencies call ct rest σ'
            | Some (Raise e, σ') => Some (Raise e, σ')
            end
        end
  end.

(** The [try] block of [register] together with its handler
    [except AlreadyRegisteredError as error: print error; return False];
    any other exception propagates. *)
Definition except_AlreadyRegisteredError (r : Result unit) (σ : State)
    : Result bool * State :=
  match r with
  | Ret _ => (Ret true, σ)
  | Raise (AlreadyRegisteredError n k) =>
      (Ret false, emit (PrintExn (AlreadyRegisteredError n k)) σ)
  | Raise e => (Raise e, σ)
  end.

(** [Base.register(cls, name)] of [components/base.py] and
    [Base.register(cls, name, *args, **kwargs)] of [systems/base.py];
    the class decides which of the two runs. The register of a component
    takes no further argument, so a call that passes one raises
    [TypeError] before the body starts. Inside [try], the instance
    [cls()], or [cls( *args, **kwargs)], is created first, then the
    manager is called. [fuel] bounds the depth of nested [register]
    calls; [None] is returned when it does not suffice. *)
Fixpoint register (fuel : nat) (ct : ClassTable) (cls : cid) (name : string)
    (args : Args) (σ : State) : option (Result bool * State) :=
  match fuel with
  | 0 => None
  | S fuel' =>
      let k := kind (class_of ct cls) in
      match k, args with
      | Component, _ :: _ => Some (Raise TypeError, σ)
      | _, _ =>
          match construct (class_of ct cls) args with
          | Some e => Some (except_AlreadyRegisteredError (Raise e) σ)
          | None =>
              let bound :=
                match k with
                | Component => register_component name cls (registry k σ)
                | System => register_system name cls (registry k σ)
                end in
              match bound with
              | Raise e => Some (except_AlreadyRegisteredError (Raise e) σ)
              | Ret table =>
                  let σ1 :=
                    set_registered_as cls name (set_registry k table σ) in
                  match register_dependencies
                          (λ d n, register fuel' ct d n []) ct
                          (Base__dependencies ct cls) σ1 with
                  | None => None
                  | Some (r, σ2) => Some (except_AlreadyRegisteredError r σ2)
                  end
              end
          end
      end
  end.

(** Nesting depth that always suffices: every nested call is made with
    the default name of a listed class, and goes deeper only after
    binding that name. *)
Definition register_depth (ct : ClassTable) : nat := 2 + size (dom ct).

(** [cls.register(name, *args, **kwargs)] as a call that always
    finishes. *)
Definition call_register (ct : ClassTable) (cls : cid) (name : string)
    (args : Args) (σ : State) : option (Result bool * State) :=
  register (register_depth ct) ct cls name args σ.

(** ** [Base.setup] of [components/base.py] *)

(** A data record: field name to value. *)
Abbreviation Fields := (gmap string string).

(** The dictionary from which an entity is created: registered component
    name to data record. *)
Abbreviation EntityDict := (gmap string Fields).

(** [setup(cls, data, entity)]. The dictionary [entity] is updated in
    place and returned, so the outcome is paired with the contents of the
    caller's dictionary after the call. *)
Definition setup (ct : ClassTable) (σ : State) (cls : cid) (data : Fields)
    (entity : EntityDict) : Result EntityDict * EntityDict :=
  match registered_as ct σ cls with
  | Some key =>
      if truthy (Some key) then
        let entity' :=
          if decide (key ∈ dom entity) then entity
          else <[key := ∅]> entity in
        (Ret entity', entity')
      else (Raise (NotRegisteredError "Component"), entity)
  | None => (Raise (NotRegisteredError "Component"), entity)
  end.

(** ** Entities of the running game

    The look action receives [bGrease.Entity] instances. Reading the
    attribute [name] of an entity first finds what the object itself
    has ([world], [entity_id], [exists], [delete], ...): the value of
    such an attribute is represented by its truth value, and it has none
    of the fields of a component. Any other name goes through the
    components of the entity's world: the read raises [AttributeError]
    when the world has no component of that name and yields an accessor
    otherwise; the accessor is true exactly when the entity has data in
    that component, and its attributes are the fields of that data.
    [getattr] with a name that is not a string raises [TypeError]. *)
Record Entity := {
  entity_id : nat;
  entity_attributes : gmap string bool;
  world_components : gmap string (gmap nat Fields)
}.

Record Accessor := {
  accessor_component : gmap nat Fields;
  accessor_entity : nat
}.

(** What [getattr(entity, name)] yields. *)
Inductive Attribute :=
| own_attribute (truth : bool)
| component_accessor (a : Accessor).

Definition getattr (entity : Entity) (name : option string) : Result Attribute :=
  match name with
  | None => Raise TypeError
  | Some n =>
      match entity_attributes entity !! n with
      | Some truth => Ret (own_attribute truth)
      | None =>
          match world_components entity !! n with
          | None => Raise (AttributeError n)
          | Some component =>
              Ret (component_accessor
                     {| accessor_component := component;
                        accessor_entity := entity_id entity |})
          end
      end
  end.

Definition accessor_data (a : Accessor) : option Fields :=
  accessor_component a !! accessor_entity a.

Definition accessor_true (a : Accessor) : bool :=
  bool_decide (is_Some (accessor_data a)).

Definition accessor_field (a : Accessor) (field : string) : Result string :=
  match accessor_data a ≫= (.!! field) with
  | Some v => Ret v
  | None => Raise (AttributeError field)
  end.

(** [if value:] on the result of [getattr]. *)
Definition attribute_true (v : Attribute) : bool :=
  match v with
  | own_attribute truth => truth
  | component_accessor a => accessor_true a
  end.

(** [value.field] on the result of [getattr]. *)
Definition attribute_field (v : Attribute) (field : string) : Result string :=
  match v with
  | own_attribute _ => Raise (AttributeError field)
  | component_accessor a => accessor_field a field
  end.

(** The entity has data in the component called [name]. *)
Definition carries (entity : Entity) (name : string) : Prop :=
  ∃ component data,
    world_components entity !! name = Some component ∧
    component !! entity_id entity = Some data.

(** ** [LookAction] of [actions/look.py] *)

Definition newline : string := String "010"%char "".

Module LookAction.

(** Modelled from the spec: the fields that [actions.base.Base.__init__]
    stores ([fife_rpg/actions/base.py] is not among the sources): the
    controller, the acting entity, the target entity and the ordered
    follow-up command names ([commands = None] stands for no commands).
    Of the controller the model keeps how it runs a command by name: the
    exception the command ends with, if any. *)
Record t := {
  controller : string → option Exn;
  agent : Entity;
  target : Entity;
  commands : list string
}.

(** Modelled from the spec: [actions.base.Base.__init__], called by
    [LookAction.__init__] with its own arguments. *)
Definition __init__ (controller : string → option Exn)
    (agent target : Entity) (commands : option (list string)) : t :=
  {| controller := controller; agent := agent; target := target;
     commands := default [] commands |}.

(** Modelled from the spec: the loop of [actions.base.Base.execute]
    ([fife_rpg/actions/base.py] is not among the sources), which
    triggers the execution of each follow-up command by name through the
    controller, in the order given; nothing isolates a failure, so the
    exception of a command ends the loop and propagates. *)
Fixpoint run_commands (controller : string → option Exn)
    (commands : list string) (σ : State) : Result unit * State :=
  match commands with
  | [] => (Ret tt, σ)
  | command :: rest =>
      match controller command with
      | Some e => (Raise e, emit (RunCommand command) σ)
      | None => run_commands controller rest (emit (RunCommand command) σ)
      end
  end.

(** Modelled from the spec: [actions.base.Base.execute]. *)
Definition Base_execute (self : t) (σ : State) : Result unit * State :=
  run_commands (controller self) (commands self) σ.

Section WithDescription.

(** The classes of the program and the component class [Description]
    imported by [look.py]. *)
Variable ct : ClassTable.
Variable Description : cid.

(** The text built by ["You see %s. \n%s" % (view_name, desc)]. *)
Definition message (view_name desc : string) : string :=
  "You see " ++ view_name ++ ". " ++ newline ++ desc.

Definition execute (self : t) (σ : State) : Result unit * State :=
  match getattr (target self) (registered_as ct σ Description) with
  | Raise e => (Raise e, σ)
  | Ret description =>
      match attribute_field description "view_name" with
      | Raise e => (Raise e, σ)
      | Ret view_name =>
          match attribute_field description "desc" with
          | Raise e => (Raise e, σ)
          | Ret desc =>
              Base_execute self (emit (PrintStr (message view_name desc)) σ)
          end
      end
  end.

Definition check_agent (entity : Entity) : bool := true.

Definition check_target (σ : State) (entity : Entity) : Result bool :=
  match getattr entity (registered_as ct σ Description) with
  | Raise e => Raise e
  | Ret description =>
      if attribute_true description then Ret true else Ret false
  end.

End WithDescription.

End LookAction.

(** ** [GameSceneListener] of [game_scene.py] *)

Module GameSceneListener.

(** Values stored in the attributes of a listener. *)
Inductive Value :=
| PyNone
| PyBool (b : bool)
| PyObject (handle : nat).

(** An instance is its attribute dictionary. *)
Abbreviation Instance := (gmap string Value).

(** The attribute that [self.__outline_ignore] denotes inside the class
    body. *)
Definition outline_ignore_attribute : string :=
  "_GameSceneListener__outline_ignore".

Section WithEngine.

(** [engine.getEventManager()] and the handle that the constructor of
    [fife.IMouseListener] stores in [this]. *)
Variable getEventManager : Value -> Value.
Variable new_IMouseListener : Value.

Definition IMouseListener__init__ (self : Instance) : Instance :=
  <["this" := new_IMouseListener]> self.

(** [GameSceneListener.__init__(self, engine, gamecontroller=None)]. *)
Definition __init__ (engine : Value) (gamecontroller : option Value)
    : Instance :=
  let self : Instance := ∅ in
  let self := <["engine" := engine]> self in
  let self := <["gamecontroller" := default PyNone gamecontroller]> self in
  let self := <["eventmanager" := getEventManager engine]> self in
  let self := IMouseListener__init__ self in
  <["is_outlined" := PyBool false]> self.

(** The property getter: [return self.__outline_ignore]. *)
Definition outline_ignore (self : Instance) : Result Value :=
  match self !! outline_ignore_attribute with
  | Some v => Ret v
  | None => Raise (AttributeError outline_ignore_attribute)
  end.

(** What the program does with a listener afterwards: the methods of
    the class, and the assignments to the public attributes
    ([GameSceneController.on_activate] assigns [gamecontroller];
    [is_outlined] is switched by the application). *)
Inductive Call :=
| activate
| deactivate
| mousePressed
| mouseMoved
| mouseReleased
| mouseDragged
| mouseWheelMovedUp
| mouseWheelMovedDown
| set_gamecontroller (controller : Value)
| set_is_outlined (b : bool).

(** Effect of a call on the attributes of the listener. The methods
    only call into the engine; none assigns an attribute. *)
Definition call (c : Call) (self : Instance) : Instance :=
  match c with
  | set_gamecontroller controller => <["gamecontroller" := controller]> self
  | set_is_outlined b => <["is_outlined" := PyBool b]> self
  | _ => self
  end.

Definition calls (cs : list Call) (self : Instance) : Instance :=
  foldl (λ s c, call c s) self cs.

End WithEngine.

End GameSceneListener.

(** ** [SimpleOutliner] of [game_scene.py] *)

(** The data of an outline, a tuple of numbers
    [(Red, Green, Blue, Width, Threshold)]. *)
Abbreviation OutlineData := (list nat).

(** [x or d] on a tuple or list argument that may be [None]: [None] and
    the empty sequence are false. *)
Definition or_else {A} (x : option (list A)) (d : list A) : list A :=
  match x with
  | Some (a :: l) => a :: l
  | _ => d
  end.

Module SimpleOutliner.

(** The public attribute [outline_data] and the private
    [__outline_ignore]. *)
Record t := {
  outline_data : OutlineData;
  _SimpleOutliner__outline_ignore : list string
}.

Definition __init__ (outline_data : option OutlineData)
    (outline_ignore : option (list string)) : t :=
  {| outline_data := or_else outline_data [255; 255; 255; 1];
     _SimpleOutliner__outline_ignore := or_else outline_ignore [] |}.

(** The property getter. *)
Definition outline_ignore (self : t) : list string :=
  _SimpleOutliner__outline_ignore self.

(** [get_data(self, world, identifier)]; [None] is Python's [None]. *)
Definition get_data (self : t) (world : GameSceneListener.Value)
    (identifier : string) : option OutlineData :=
  if decide (identifier ∈ outline_ignore self) then None
  else Some (outline_data self).

End SimpleOutliner.

(** ** The scene: controller, listener, map and renderer *)

Module GameScene.

Import GameSceneListener.

(** An implementation of [BaseOutliner]: the [SimpleOutliner] of the
    module or any other class with a [get_data] method. *)
Inductive Outliner :=
| simple (o : SimpleOutliner.t)
| custom (get_data : Value → string → option OutlineData).

(** [outliner.get_data(world, identifier)], dispatched on the class. *)
Definition get_data (outliner : Outliner) (world : Value)
    (identifier : string) : option OutlineData :=
  match outliner with
  | simple o => SimpleOutliner.get_data o world identifier
  | custom f => f world identifier
  end.

(** A [fife.Instance] on a layer. *)
Record FifeInstance := {
  getId : string;
  instance_handle : nat
}.

(** What [mouseMoved] uses of the current map: its camera and the two
    queries, whose results are up to the map. *)
Record GameMap := {
  camera : nat;
  get_layer : string → nat;
  get_instances_at : Z * Z → nat → list FifeInstance
}.

(** What the code uses of the application. *)
Record Application := {
  current_map : option GameMap;
  world : Value;
  engine : Value
}.

(** The attributes of a [GameSceneController]; the listener is held by
    reference. *)
Record Controller := {
  view : Value;
  application : Application;
  outliner : Outliner;
  listener : nat
}.

(** Calls received by the renderer of a camera and by the event manager
    of the engine. *)
Inductive EngineCall :=
| removeAllOutlines (camera : nat)
| addOutlined (camera : nat) (instance : FifeInstance) (data : OutlineData)
| addMouseListener (eventmanager : Value) (listener : nat)
| removeMouseListener (eventmanager : Value) (listener : nat).

(** The objects of a scene, by handle. *)
Record Scene := {
  controllers : gmap nat Controller;
  listeners : gmap nat Instance
}.

(** Truth value of an attribute in [if self.is_outlined]. *)
Definition is_true (v : Value) : bool :=
  match v with
  | PyNone => false
  | PyBool b => b
  | PyObject _ => true
  end.

(** The loop
    [for instance in actor_instances:
         data = controller.outliner.get_data(world, instance.getId())
         if data is not None: renderer.addOutlined(instance, *data)]. *)
Fixpoint outline_instances (renderer : nat) (outliner : Outliner)
    (world : Value) (actor_instances : list FifeInstance) : list EngineCall :=
  match actor_instances with
  | [] => []
  | instance :: rest =>
      match get_data outliner world (getId instance) with
      | Some data =>
          addOutlined renderer instance data
            :: outline_instances renderer outliner world rest
      | None => outline_instances renderer outliner world rest
      end
  end.

(** [GameSceneListener.mouseMoved(self, event)], with the event given by
    its coordinates; the result lists the calls made to the renderer. A
    [gamecontroller] that is not a controller has no [application]. *)
Definition mouseMoved (scene : Scene) (self : Instance) (event : Z * Z)
    : Result (list EngineCall) :=
  match self !! "is_outlined" with
  | None => Raise (AttributeError "is_outlined")
  | Some is_outlined =>
      if is_true is_outlined then
        match self !! "gamecontroller" with
        | None => Raise (AttributeError "gamecontroller")
        | Some PyNone => Ret []
        | Some (PyBool _) => Raise (AttributeError "application")
        | Some (PyObject handle) =>
            match controllers scene !! handle with
            | None => Raise (AttributeError "application")
            | Some controller =>
                match current_map (application controller) with
                | None => Ret []
                | Some game_map =>
                    let renderer := camera game_map in
                    let actor_instances :=
                      get_instances_at game_map event
                        (get_layer game_map "actors") in
                    Ret (removeAllOutlines renderer
                           :: outline_instances renderer
                                (outliner controller)
                                (world (application controller))
                                actor_instances)
                end
            end
        end
      else Ret []
  end.

Section WithEngine.

Variable getEventManager : Value → Value.
Variable new_IMouseListener : Value.

(** [GameSceneController.__init__(self, view, application, outliner=None,
    listener=None)]. [self] is the handle of the new controller and
    [fresh] the handle a listener gets when one is created.

    Modelled from the spec: [ControllerBase.__init__]
    ([fife_rpg/__init__.py] is not among the sources) is taken to store
    its two arguments as [view] and [application], the properties that
    the docstring of [GameSceneController] lists and [mouseMoved]
    reads. *)
Definition __init__ (self : nat) (view : Value) (application : Application)
    (outliner : option Outliner) (listener : option nat) (fresh : nat)
    (scene : Scene) : Scene :=
  let outliner := default (simple (SimpleOutliner.__init__ None None)) outliner in
  match listener with
  | Some given =>
      {| controllers :=
           <[self := {| view := view; application := application;
                        outliner := outliner; listener := given |}]>
             (controllers scene);
         listeners := listeners scene |}
  | None =>
      {| controllers :=
           <[self := {| view := view; application := application;
                        outliner := outliner; listener := fresh |}]>
             (controllers scene);
         listeners :=
           <[fresh := GameSceneListener.__init__ getEventManager
                        new_IMouseListener (engine application)
                        (Some (PyObject self))]>
             (listeners scene) |}
  end.

End WithEngine.

(** [self.eventmanager] of a listener. *)
Definition eventmanager (self : Instance) : Value :=
  default PyNone (self !! "eventmanager").


(** [GameSceneController.on_deactivate(self)]. *)
Definition on_deactivate (self : nat) (scene : Scene)
    : Scene * list EngineCall :=
  match controllers scene !! self with
  | None => (scene, [])
  | Some controller =>
      match listeners scene !! listener controller with
      | None => (scene, [])
      | Some l =>
          ({| controllers := controllers scene;
              listeners := <[listener controller := call deactivate l]>
                             (listeners scene) |},
           [removeMouseListener (eventmanager l) (listener controller)])
      end
  end.

End GameScene.

(** * Notions used in the statements *)

(** The name assigned on the class itself, if any. *)
Definition own_name (σ : State) (cls : cid) : option string :=
  registered_name σ !! cls.

(** The call creates an instance: the constructor accepts the arguments,
    and a component is given none. *)
Definition instantiable (ct : ClassTable) (cls : cid) (args : Args) : Prop :=
  construct (class_of ct cls) args = None ∧
  (kind (class_of ct cls) = Component → args = []).

#[global] Instance instantiable_dec ct cls args :
  Decision (instantiable ct cls args).
Proof. unfold instantiable. apply _. Defined.

(** The state right after [register_component(name, cls())] and
    [cls.__registered_as = name] have run. *)
Definition bind_name (ct : ClassTable) (cls : cid) (name : string)
    (σ : State) : State :=
  let k := kind (class_of ct cls) in
  set_registered_as cls name (set_registry k (<[name := cls]> (registry k σ)) σ).

(** The registries and the set of named types only grow. *)
Definition grows (σ σ' : State) : Prop :=
  (∀ k, registry k σ ⊆ registry k σ') ∧
  (∀ c, is_Some (own_name σ c) → is_Some (own_name σ' c)).

(** A listed class is pending when it has a default name that is still
    free in its registry: these are the only classes for which a nested
    call can go deeper. *)
Definition pending (ct : ClassTable) (σ : State) (c : cid) : Prop :=
  ∃ name, default_name (class_of ct c) = Some name ∧
          registry (kind (class_of ct c)) σ !! name = None.

#[global] Instance pending_dec ct σ c : Decision (pending ct σ c).
Proof.
  unfold pending. destruct (default_name (class_of ct c)) as [name|].
  - destruct (registry (kind (class_of ct c)) σ !! name) eqn:Hr.
    + right. intros (n & [= <-] & Hn). congruence.
    + left. eauto.
  - right. by intros (n & ? & _).
Defined.

Definition pending_classes (ct : ClassTable) (σ : State) : gset cid :=
  filter (pending ct σ) (dom ct).

(** What a run of the dependency loop can do to the state: the
    registries grow; a new entry binds the default name of a class whose
    own name was unset or empty, and that class then has the name; the
    own name of a class changes only if it was unset or empty, and only
    to the default name of the class, bound to the class. *)
Definition nested (ct : ClassTable) (σ σ' : State) : Prop :=
  grows σ σ' ∧
  (∀ k name c,
      registry k σ' !! name = Some c →
      registry k σ !! name = Some c ∨
      (k = kind (class_of ct c) ∧
       truthy (own_name σ c) = false ∧
       default_name (class_of ct c) = Some name ∧
       own_name σ' c = Some name)) ∧
  (∀ c,
      own_name σ' c = own_name σ c ∨
      ∃ name,
        truthy (own_name σ c) = false ∧
        default_name (class_of ct c) = Some name ∧
        own_name σ' c = Some name ∧
        registry (kind (class_of ct c)) σ' !! name = Some c).


(** The operations a program performs on the registries. *)
Inductive Op :=
| OpRegister (cls : cid) (name : string) (args : Args)
| OpSetup (cls : cid) (data : Fields) (entity : EntityDict).

Definition exec_op (ct : ClassTable) (op : Op) (σ : State) : State :=
  match op with
  | OpRegister cls name args =>
      match call_register ct cls name args σ with
      | Some (_, σ') => σ'
      | None => σ
      end
  | OpSetup _ _ _ => σ
  end.

Definition run (ct : ClassTable) (ops : list Op) (σ : State) : State :=
  foldl (λ s op, exec_op ct op s) σ ops.



(** The entity after a successful [setup] under [name]. *)
Definition with_record (name : string) (entity : EntityDict) : EntityDict :=
  if decide (name ∈ dom entity) then entity else <[name := ∅]> entity.

(** [sub] occurs in [s]. *)
Definition contains (s sub : string) : Prop :=
  ∃ before after, s = before ++ sub ++ after.

(** The data the target has in the component [Description] is
    registered as, when that name denotes a component and not an
    attribute of the entity object. *)
Definition description_data (ct : ClassTable) (Description : cid) (σ : State)
    (entity : Entity) : option Fields :=
  name ← registered_as ct σ Description;
  match entity_attributes entity !! name with
  | Some _ => None
  | None =>
      component ← world_components entity !! name;
      component !! entity_id entity
  end.

(** The commands up to and including the first that fails. *)
Fixpoint attempted (controller : string → option Exn) (commands : list string)
    : list string :=
  match commands with
  | [] => []
  | command :: rest =>
      match controller command with
      | Some _ => [command]
      | None => command :: attempted controller rest
      end
  end.

(** The exception of the first command that fails. *)
Fixpoint first_failure (controller : string → option Exn)
    (commands : list string) : option Exn :=
  match commands with
  | [] => None
  | command :: rest =>
      match controller command with
      | Some e => Some e
      | None => first_failure controller rest
      end
  end.


(** ** Sample programs *)

(** A component class that is created without arguments. *)
Definition component_class (default : option string) (declared : list cid)
    (private : option (list cid)) : PyClass :=
  {| kind := Component; mro := []; construct := λ _, None;
     default_name := default;
     dependencies := declared; private_dependencies := private |}.

(** [class Look(Base): dependencies = [Description]], with the private
    list set as well, [class Description(Base)] with the default name
    ["description"], and a third class without defaults. *)
Definition sample_classes : ClassTable :=
  {[ 0 := component_class (Some "Look") [1] (Some [1]);
     1 := component_class (Some "description") [] None;
     2 := plain_class Component ]}.

(** [class Look(Base): dependencies = [Description]] exactly as
    [look.py] writes it: only the public attribute is set. *)
Definition declared_classes : ClassTable :=
  {[ 0 := component_class (Some "Look") [1] None;
     1 := component_class (Some "description") [] None ]}.


(** Two classes that name each other in their dependency lists. *)
Definition cyclic_classes : ClassTable :=
  {[ 0 := component_class (Some "A") [1] (Some [1]);
     1 := component_class (Some "B") [0] (Some [0]) ]}.

(** A system whose constructor takes one argument, and a system whose
    constructor takes none. *)
Definition system_classes : ClassTable :=
  {[ 0 := {| kind := System; mro := [];
             construct := λ args, match args with
                                  | [_] => None
                                  | _ => Some TypeError
                                  end;
             default_name := None;
             dependencies := []; private_dependencies := None |};
     1 := {| kind := System; mro := []; construct := λ _, None;
             default_name := None;
             dependencies := []; private_dependencies := None |} ]}.



(** The state in which the third sample class occupies the name
    ["description"]. *)
Definition description_taken : State :=
  run sample_classes [OpRegister 2 "description" []] initial_state.

(** The state after [Description.register()]. *)
Definition description_registered : State :=
  run sample_classes [OpRegister 1 "description" []] initial_state.

(** The state after a plain class has been registered under the empty
    name. *)
Definition empty_name_registered : State :=
  run ∅ [OpRegister 0 "" []] initial_state.

(** The state after [Look.register()], which registers [Description] as
    well. *)
Definition look_registered : State :=
  run sample_classes [OpRegister 0 "Look" []] initial_state.

(** The state after the second system has been registered as
    ["render"]. *)
Definition render_registered : State :=
  run system_classes [OpRegister 1 "render" []] initial_state.

(** A map with three actors under every screen point, and an
    application showing it. *)
Definition sample_actors : list GameScene.FifeInstance :=
  [ {| GameScene.getId := "player"; GameScene.instance_handle := 1 |};
    {| GameScene.getId := "chest"; GameScene.instance_handle := 2 |};
    {| GameScene.getId := "wall"; GameScene.instance_handle := 3 |} ].

Definition sample_map : GameScene.GameMap :=
  {| GameScene.camera := 5;
     GameScene.get_layer := λ _, 0;
     GameScene.get_instances_at := λ _ _, sample_actors |}.

Definition sample_application : GameScene.Application :=
  {| GameScene.current_map := Some sample_map;
     GameScene.world := GameSceneListener.PyObject 10;
     GameScene.engine := GameSceneListener.PyObject 11 |}.

Definition empty_scene : GameScene.Scene :=
  {| GameScene.controllers := ∅; GameScene.listeners := ∅ |}.

(** A controller (handle 20) made with an outliner that ignores the
    wall and no listener, so that it makes its own (handle 21). *)
Definition sample_scene : GameScene.Scene :=
  GameScene.__init__ (λ _, GameSceneListener.PyObject 12)
    (GameSceneListener.PyObject 13) 20 (GameSceneListener.PyObject 14)
    sample_application
    (Some (GameScene.simple (SimpleOutliner.__init__ None (Some ["wall"]))))
    None 21 empty_scene.


(** What an entity object has of its own. *)
Definition entity_object : gmap string bool :=
  {[ "world" := true; "entity_id" := true; "exists" := true;
     "delete" := true ]}.

(** An entity of a world with a description component, in which it has
    data, one of a world without that component and one that has no
    data in it. *)
Definition sample_fields : Fields :=
  {[ "view_name" := "a chest"; "desc" := "It is locked." ]}.

Definition described_entity : Entity :=
  {| entity_id := 7; entity_attributes := entity_object;
     world_components := {[ "description" := {[ 7 := sample_fields ]} ]} |}.

Definition bare_entity : Entity :=
  {| entity_id := 8; entity_attributes := entity_object;
     world_components := ∅ |}.

Definition undescribed_entity : Entity :=
  {| entity_id := 9; entity_attributes := entity_object;
     world_components := {[ "description" := {[ 7 := sample_fields ]} ]} |}.

(** An entity whose description data has a view name and no text. *)
Definition terse_entity : Entity :=
  {| entity_id := 6; entity_attributes := entity_object;
     world_components :=
       {[ "description" := {[ 6 := {[ "view_name" := "a door" ]} ]} ]} |}.


(** A controller that runs every command, and one for which ["open"]
    fails. *)
Definition obliging : string → option Exn := λ _, None.

Definition stuck : string → option Exn :=
  λ command, if String.eqb command "open" then Some (OtherError "stuck")
             else None.

(** * Properties *)

(** ** Reading [registered_as] *)

Lemma registered_as_own ct σ cls name :
  own_name σ cls = Some name → registered_as ct σ cls = Some name.
Proof. unfold registered_as, own_name. simpl. by intros ->. Qed.

Lemma registered_as_falsy_own ct σ cls :
  truthy (registered_as ct σ cls) = false → truthy (own_name σ cls) = false.
Proof.
  destruct (own_name σ cls) as [n|] eqn:Hn; [|done].
  by rewrite (registered_as_own ct _ _ _ Hn).
Qed.



(** ** Stepping through [register] *)

Lemma registry_set_registry k k' r σ :
  registry k (set_registry k' r σ) = if decide (k = k') then r else registry k σ.
Proof. by destruct k, k'. Qed.

Lemma registry_bind_name ct cls name σ k :
  registry k (bind_name ct cls name σ) =
  if decide (k = kind (class_of ct cls))
  then <[name := cls]> (registry k σ) else registry k σ.
Proof.
  unfold bind_name. destruct k, (kind (class_of ct cls)); by simpl.
Qed.

Lemma own_name_bind_name ct cls name σ c :
  own_name (bind_name ct cls name σ) c =
  if decide (cls = c) then Some name else own_name σ c.
Proof.
  unfold bind_name, own_name.
  destruct (kind (class_of ct cls)); simpl; apply lookup_insert.
Qed.


Lemma registry_emit k ev σ : registry k (emit ev σ) = registry k σ.
Proof. by destruct k. Qed.

Lemma own_name_emit ev σ c : own_name (emit ev σ) c = own_name σ c.
Proof. done. Qed.

Lemma first_registered_ext σ σ' classes :
  registered_name σ = registered_name σ' →
  first_registered σ classes = first_registered σ' classes.
Proof.
  intros Heq. induction classes as [|c l IH]; simpl; [done|].
  by rewrite Heq, IH.
Qed.

Lemma registered_as_emit ct ev σ c :
  registered_as ct (emit ev σ) c = registered_as ct σ c.
Proof. by apply first_registered_ext. Qed.

(** One unfolding of [register] for a call that creates its instance. *)
Lemma register_S fuel ct cls name args σ :
  instantiable ct cls args →
  register (S fuel) ct cls name args σ =
  let k := kind (class_of ct cls) in
  match registry k σ !! name with
  | Some _ => Some (Ret false, emit (PrintExn (AlreadyRegisteredError name k)) σ)
  | None =>
      match register_dependencies (λ d n, register fuel ct d n []) ct
              (Base__dependencies ct cls) (bind_name ct cls name σ) with
      | None => None
      | Some (r, σ2) => Some (except_AlreadyRegisteredError r σ2)
      end
  end.
Proof.
  intros [Hc Ha]. simpl. rewrite Hc.
  unfold bind_name, register_component, register_system.
  destruct (kind (class_of ct cls)) eqn:Hk; simpl.
  - rewrite Ha by done. by destruct (_ !! name).
  - by destruct (_ !! name).
Qed.

(** One unfolding of [register] for a call that does not. *)
Lemma register_S_refused fuel ct cls name args σ :
  ¬ instantiable ct cls args →
  register (S fuel) ct cls name args σ =
  match kind (class_of ct cls), args with
  | Component, _ :: _ => Some (Raise TypeError, σ)
  | _, _ =>
      match construct (class_of ct cls) args with
      | Some e => Some (except_AlreadyRegisteredError (Raise e) σ)
      | None => None
      end
  end.
Proof.
  intros Hn. simpl.
  destruct (kind (class_of ct cls)) eqn:Hk, args as [|a args]; try done.
  - destruct (construct (class_of ct cls) []) eqn:Hc; [done|].
    destruct Hn. by split.
  - destruct (construct (class_of ct cls) []) eqn:Hc; [done|].
    destruct Hn. split; [done|]. by rewrite Hk.
  - destruct (construct (class_of ct cls) (a :: args)) eqn:Hc; [done|].
    destruct Hn. split; [done|]. by rewrite Hk.
Qed.

(** What [except] does to the state: nothing, or one printed line. *)
Lemma except_state r σ b σ' :
  except_AlreadyRegisteredError r σ = (b, σ') →
  σ' = σ ∨ ∃ ev, σ' = emit ev σ.
Proof.
  destruct r as [[]|[]]; simpl; intros [= <- <-]; eauto.
Qed.

(** A call that creates no instance leaves the state as it is or
    prints one line. *)
Lemma register_refused fuel ct cls name args σ r σ' :
  ¬ instantiable ct cls args →
  register fuel ct cls name args σ = Some (r, σ') →
  (σ' = σ ∧ ∃ e, r = Raise e) ∨ (∃ ev, σ' = emit ev σ ∧ r = Ret false).
Proof.
  intros Hn. destruct fuel as [|fuel]; [done|].
  rewrite register_S_refused by done.
  destruct (kind (class_of ct cls)), args as [|a args];
    try (intros [= <- <-]; left; by eauto);
    (destruct (construct (class_of ct cls) _) as [[]|]; [..|done]);
    simpl; intros [= <- <-]; eauto.
Qed.

Section Steps.

Context (ct : ClassTable) (P : State → State → Prop).
Hypothesis P_refl : ∀ σ, P σ σ.
Hypothesis P_trans : ∀ σ1 σ2 σ3, P σ1 σ2 → P σ2 σ3 → P σ1 σ3.
Hypothesis P_emit : ∀ σ ev, P σ (emit ev σ).

(** A registration made from within the loop: the class is not yet
    registered, it is registered under its default name, and that name
    is free. *)
Hypothesis P_nested : ∀ σ d name,
  truthy (registered_as ct σ d) = false →
  default_name (class_of ct d) = Some name →
  registry (kind (class_of ct d)) σ !! name = None →
  P σ (bind_name ct d name σ).

Lemma except_steps r σ b σ' :
  except_AlreadyRegisteredError r σ = (b, σ') → P σ σ'.
Proof. intros [->|[ev ->]]%except_state; auto. Qed.

Lemma loop_steps
    (call : cid → string → State → option (Result bool * State)) :
  (∀ d name σ r σ',
      truthy (registered_as ct σ d) = false →
      default_name (class_of ct d) = Some name →
      call d name σ = Some (r, σ') → P σ σ') →
  ∀ deps σ r σ',
    register_dependencies call ct deps σ = Some (r, σ') → P σ σ'.
Proof.
  intros Hcall deps. induction deps as [|d deps IH]; simpl; intros σ r σ' H.
  - by injection H as <- <-.
  - destruct (truthy (registered_as ct σ d)) eqn:Ht; [by eauto|].
    destruct (default_name (class_of ct d)) as [name|] eqn:Hd;
      [|by injection H as <- <-].
    destruct (call d name σ) as [[[b|e] σ1]|] eqn:Hc; [| |done].
    + eapply P_trans; [by eapply Hcall|by eauto].
    + injection H as <- <-. by eapply Hcall.
Qed.

(** A call of [register] either creates no instance, and then changes
    at most the output, or finds the name taken, or binds the name and
    goes on with nested registrations and printed lines. *)
Lemma register_steps fuel cls name args σ r σ' :
  register fuel ct cls name args σ = Some (r, σ') →
  (σ' = σ ∧ (∃ e, r = Raise e) ∧ ¬ instantiable ct cls args) ∨
  (∃ ev, σ' = emit ev σ ∧ r = Ret false ∧
         (instantiable ct cls args →
          is_Some (registry (kind (class_of ct cls)) σ !! name))) ∨
  (instantiable ct cls args ∧
   registry (kind (class_of ct cls)) σ !! name = None ∧
   P (bind_name ct cls name σ) σ').
Proof.
  revert cls name args σ r σ'.
  induction fuel as [|fuel IH]; [done|]. intros cls name args σ r σ' H.
  destruct (decide (instantiable ct cls args)) as [Hi|Hi].
  - rewrite register_S in H by done. cbv zeta in H.
    destruct (registry _ σ !! name) eqn:Hreg.
    + injection H as <- <-. right. left. eauto.
    + destruct (register_dependencies _ _ _ _) as [[r2 σ2]|] eqn:Hloop; [|done].
      injection H as Hex. right. right. split_and!; [done..|].
      eapply P_trans; [|by eapply except_steps].
      eapply loop_steps; [|done].
      intros d dn σa ra σb Ht Hd Hc.
      destruct (IH _ _ _ _ _ _ Hc) as [(-> & _)|[(ev & -> & _)|(_ & Hf & HP)]];
        [done|done|].
      eapply P_trans; [by apply P_nested|done].
  - destruct (register_refused _ _ _ _ _ _ _ _ Hi H) as [[-> He]|(ev & -> & ->)].
    + by left.
    + right. left. exists ev. by split_and!.
Qed.

Lemma dependencies_steps fuel deps σ r σ' :
  register_dependencies (λ d n, register fuel ct d n []) ct deps σ = Some (r, σ') →
  P σ σ'.
Proof.
  apply loop_steps. intros d dn σa ra σb Ht Hd Hc.
  destruct (register_steps _ _ _ _ _ _ _ Hc)
    as [(-> & _)|[(ev & -> & _)|(_ & Hf & HP)]]; [done|done|].
  eapply P_trans; [by apply P_nested|done].
Qed.

End Steps.

(** A top-level [register] call is its own binding followed by nested
    steps. *)
Lemma register_preserves (ct : ClassTable) (P : State → State → Prop) :
  (∀ σ, P σ σ) →
  (∀ σ1 σ2 σ3, P σ1 σ2 → P σ2 σ3 → P σ1 σ3) →
  (∀ σ ev, P σ (emit ev σ)) →
  (∀ σ cls name,
      registry (kind (class_of ct cls)) σ !! name = None →
      P σ (bind_name ct cls name σ)) →
  ∀ fuel cls name args σ r σ',
    register fuel ct cls name args σ = Some (r, σ') → P σ σ'.
Proof.
  intros Hrefl Htrans Hemit Hbind fuel cls name args σ r σ' H.
  eapply (register_steps ct P) in H; auto.
  destruct H as [(-> & _)|[(ev & -> & _)|(_ & Hf & HP)]]; [done|done|].
  eapply Htrans; [by apply Hbind|done].
Qed.

(** ** More fuel does not change a result *)

Lemma register_dependencies_mono
    (call1 call2 : cid → string → State → option (Result bool * State)) ct :
  (∀ d name σ x, call1 d name σ = Some x → call2 d name σ = Some x) →
  ∀ deps σ y,
    register_dependencies call1 ct deps σ = Some y →
    register_dependencies call2 ct deps σ = Some y.
Proof.
  intros Hcall deps. induction deps as [|d deps IH]; simpl; intros σ y H; [done|].
  destruct (truthy _); [by auto|].
  destruct (default_name _) as [name|]; [|done].
  destruct (call1 d name σ) as [[[b|e] σ1]|] eqn:Hc; [| |done];
    rewrite (Hcall _ _ _ _ Hc); auto.
Qed.

Lemma register_fuel_S fuel ct cls name args σ x :
  register fuel ct cls name args σ = Some x →
  register (S fuel) ct cls name args σ = Some x.
Proof.
  revert cls name args σ x. induction fuel as [|fuel IH]; [done|].
  intros cls name args σ x.
  destruct (decide (instantiable ct cls args)) as [Hi|Hi].
  - rewrite (register_S fuel), (register_S (S fuel)) by done.
    cbv zeta. destruct (registry _ σ !! name); [done|].
    destruct (register_dependencies (λ d n, register fuel ct d n []) _ _ _)
      as [y|] eqn:Hloop; [|done].
    by rewrite (register_dependencies_mono _
                  (λ d n, register (S fuel) ct d n []) ct
                  (λ d n σa xa, IH d n [] σa xa) _ _ _ Hloop).
  - by rewrite (register_S_refused fuel), (register_S_refused (S fuel)).
Qed.

Lemma register_fuel_le (fuel fuel' : nat) ct cls name args σ x :
  fuel ≤ fuel' →
  register fuel ct cls name args σ = Some x →
  register fuel' ct cls name args σ = Some x.
Proof.
  induction 1 as [|fuel' _ IH]; [done|].
  intros H. by apply register_fuel_S, IH.
Qed.

(** ** The registries only grow *)

Lemma grows_refl σ : grows σ σ.
Proof. by split. Qed.

Lemma grows_trans σ1 σ2 σ3 : grows σ1 σ2 → grows σ2 σ3 → grows σ1 σ3.
Proof.
  intros [H1 H1'] [H2 H2']. split.
  - intros k. etrans; [apply H1|apply H2].
  - intros c Hc. by apply H2', H1'.
Qed.

Lemma grows_emit σ ev : grows σ (emit ev σ).
Proof. split; [|done]. intros k. by rewrite registry_emit. Qed.

Lemma grows_bind_name ct cls name σ :
  registry (kind (class_of ct cls)) σ !! name = None →
  grows σ (bind_name ct cls name σ).
Proof.
  intros Hfree. split.
  - intros k. rewrite registry_bind_name. case_decide as Hk; [|done].
    subst k. by apply insert_subseteq.
  - intros c Hc. rewrite own_name_bind_name. by case_decide.
Qed.

Lemma register_grows fuel ct cls name args σ r σ' :
  register fuel ct cls name args σ = Some (r, σ') → grows σ σ'.
Proof.
  apply (register_preserves ct grows);
    eauto using grows_refl, grows_trans, grows_emit, grows_bind_name.
Qed.

Lemma dependencies_grow fuel ct deps σ r σ' :
  register_dependencies (λ d n, register fuel ct d n []) ct deps σ
    = Some (r, σ') →
  grows σ σ'.
Proof.
  apply (dependencies_steps ct grows);
    eauto using grows_refl, grows_trans, grows_emit, grows_bind_name.
Qed.

Lemma grows_lookup σ σ' k name c :
  grows σ σ' → registry k σ !! name = Some c → registry k σ' !! name = Some c.
Proof. intros [H _] Hs. by eapply lookup_weaken. Qed.

Lemma grows_lookup_None σ σ' k name :
  grows σ σ' → registry k σ' !! name = None → registry k σ !! name = None.
Proof.
  intros Hg Hn. destruct (registry k σ !! name) eqn:Hs; [|done].
  by rewrite (grows_lookup _ _ _ _ _ Hg Hs) in Hn.
Qed.


(** ** [register] always finishes *)

Lemma default_name_listed (ct : ClassTable) c name :
  default_name (class_of ct c) = Some name → c ∈ dom ct.
Proof.
  unfold class_of. intros H. apply elem_of_dom.
  by destruct (ct !! c).
Qed.

Lemma pending_classes_grows ct σ σ' :
  grows σ σ' → pending_classes ct σ' ⊆ pending_classes ct σ.
Proof.
  intros Hg c. unfold pending_classes. rewrite !elem_of_filter.
  intros [(name & Hd & Hn) Hc]. split; [|done].
  exists name. split; [done|]. by eapply grows_lookup_None.
Qed.

Lemma pending_classes_bind_name ct d name σ :
  default_name (class_of ct d) = Some name →
  registry (kind (class_of ct d)) σ !! name = None →
  size (pending_classes ct (bind_name ct d name σ)) < size (pending_classes ct σ).
Proof.
  intros Hd Hfree. apply subset_size. apply strict_spec_alt. split.
  - by apply pending_classes_grows, grows_bind_name.
  - intros Heq. assert (d ∈ pending_classes ct σ) as Hin.
    { apply elem_of_filter. split; [by exists name|by eapply default_name_listed]. }
    rewrite <-Heq in Hin. apply elem_of_filter in Hin as [(n & Hn & Hfree') _].
    rewrite Hd in Hn. injection Hn as <-.
    rewrite registry_bind_name in Hfree'. rewrite decide_True in Hfree' by done.
    by rewrite lookup_insert_eq in Hfree'.
Qed.

Lemma pending_classes_size ct σ : size (pending_classes ct σ) ≤ size (dom ct).
Proof.
  apply subseteq_size. intros c. unfold pending_classes.
  rewrite elem_of_filter. tauto.
Qed.

Lemma register_refused_finishes fuel ct cls name args σ :
  ¬ instantiable ct cls args →
  is_Some (register (S fuel) ct cls name args σ).
Proof.
  intros Hi. rewrite register_S_refused by done.
  destruct (kind (class_of ct cls)) eqn:Hk, args as [|a args]; try done;
    destruct (construct (class_of ct cls) _) eqn:Hc; try done;
    exfalso; apply Hi; (split; [done|]); by rewrite Hk.
Qed.

Lemma register_finishes ct fuel :
  ∀ cls name args σ,
    1 ≤ fuel →
    (registry (kind (class_of ct cls)) σ !! name = None →
     2 + size (pending_classes ct (bind_name ct cls name σ)) ≤ fuel) →
    is_Some (register fuel ct cls name args σ).
Proof.
  induction fuel as [|fuel IH]; [lia|]. intros cls name args σ _ Hfuel.
  destruct (decide (instantiable ct cls args)) as [Hi|Hi];
    [|by apply register_refused_finishes].
  rewrite register_S by done. cbv zeta.
  destruct (registry _ σ !! name) eqn:Hreg; [done|].
  specialize (Hfuel eq_refl).
  set (σ1 := bind_name ct cls name σ) in *.
  assert (∀ deps σa, 1 + size (pending_classes ct σa) ≤ fuel →
            is_Some (register_dependencies (λ d n, register fuel ct d n [])
                       ct deps σa)) as Hloop.
  { intros deps. induction deps as [|d deps IHd]; simpl; intros σa Hσa; [done|].
    destruct (truthy _); [by auto|].
    destruct (default_name (class_of ct d)) as [dn|] eqn:Hd; [|done].
    destruct (IH d dn [] σa) as [[[b|e] σb] Hc]; [lia| | |].
    - intros Hfree. pose proof (pending_classes_bind_name _ _ _ _ Hd Hfree). lia.
    - rewrite Hc. apply IHd.
      pose proof (subseteq_size _ _
        (pending_classes_grows ct _ _ (register_grows _ _ _ _ _ _ _ _ Hc))). lia.
    - by rewrite Hc. }
  destruct (Hloop (Base__dependencies ct cls) σ1) as [[r σ2] ->]; [lia|done].
Qed.

(** [cls.register(name)] returns or raises, whatever the dependency
    lists look like. *)
Lemma register_total ct cls name args σ :
  ∃ r σ', call_register ct cls name args σ = Some (r, σ').
Proof.
  destruct (register_finishes ct (register_depth ct) cls name args σ)
    as [[r σ'] H]; unfold register_depth.
  - lia.
  - intros _. pose proof (pending_classes_size ct (bind_name ct cls name σ)). lia.
  - by exists r, σ'.
Qed.

(** ** Duplicate names *)

(** No [AlreadyRegisteredError] leaves [register]: it is handled inside
    every call. *)
Lemma register_raises fuel ct :
  ∀ cls name args σ e σ',
    register fuel ct cls name args σ = Some (Raise e, σ') →
    ∀ n k, e ≠ AlreadyRegisteredError n k.
Proof.
  induction fuel as [|fuel IH]; [done|]. intros cls name args σ e σ' H.
  destruct (decide (instantiable ct cls args)) as [Hi|Hi]; cycle 1.
  { rewrite register_S_refused in H by done.
    destruct (kind (class_of ct cls)), args as [|a args];
      try (by simplify_eq);
      (destruct (construct (class_of ct cls) _) as [[]|]; [..|done]);
      simpl in H; by simplify_eq. }
  rewrite register_S in H by done. cbv zeta in H.
  destruct (registry _ σ !! name); [done|].
  assert (∀ deps σa e' σb,
            register_dependencies (λ d n, register fuel ct d n []) ct deps σa
              = Some (Raise e', σb) →
            ∀ n k, e' ≠ AlreadyRegisteredError n k) as Hloop.
  { intros deps. induction deps as [|d deps IHd]; simpl; intros σa e' σb H';
      [done|].
    destruct (truthy _); [by eauto|].
    destruct (default_name _) as [dn|]; [|by injection H' as <- _].
    destruct (register fuel ct d dn [] σa) as [[[b|e''] σc]|] eqn:Hc;
      [by eauto| |done].
    injection H' as <- _. by eapply IH. }
  destruct (register_dependencies _ _ _ _) as [[[[]|e'] σ2]|] eqn:Hl;
    [done| |done].
  pose proof (Hloop _ _ _ _ Hl) as He'.
  destruct e'; simpl in H; simplify_eq; try done.
Qed.

(** A boolean returned by a call that creates its instance tells whether
    the name was free. *)
Lemma register_returns fuel ct cls name args σ b σ' :
  instantiable ct cls args →
  register fuel ct cls name args σ = Some (Ret b, σ') →
  b = true ↔ registry (kind (class_of ct cls)) σ !! name = None.
Proof.
  intros Hi. destruct fuel as [|fuel]; [done|]. rewrite register_S by done.
  cbv zeta. destruct (registry _ σ !! name) eqn:Hreg.
  - intros [= <- _]. split; done.
  - destruct (register_dependencies _ _ _ _) as [[[[]|e] σ2]|] eqn:Hl; [| |done].
    + by intros [= <- _].
    + assert (∀ n k, e ≠ AlreadyRegisteredError n k) as He.
      { clear Hreg. revert Hl. generalize (bind_name ct cls name σ).
        generalize (Base__dependencies ct cls) as deps.
        induction deps as [|d deps IHd]; simpl; intros σa H; [done|].
        destruct (truthy _); [by eauto|].
        destruct (default_name _) as [dn|]; [|by injection H as <- _].
        destruct (register fuel ct d dn [] σa) as [[[b'|e''] σc]|] eqn:Hc;
          [by eauto| |done].
        injection H as <- _. by eapply register_raises. }
      destruct e; simpl; try done. by destruct (He name0 what).
Qed.

(** [register] returns [True] only after creating the instance and
    finding the name free. *)
Lemma register_True fuel ct cls name args σ σ' :
  register fuel ct cls name args σ = Some (Ret true, σ') →
  instantiable ct cls args ∧
  registry (kind (class_of ct cls)) σ !! name = None.
Proof.
  intros H. destruct (decide (instantiable ct cls args)) as [Hi|Hi].
  - split; [done|]. by apply (register_returns _ _ _ _ _ _ _ _ Hi H).
  - by destruct (register_refused _ _ _ _ _ _ _ _ Hi H)
      as [[_ [e ?]]|(ev & _ & ?)].
Qed.

(** C1, as stated, fails: the instance is created before the manager is
    asked, so for a type whose constructor does not accept the call the
    exception of the constructor comes instead of [False], although the
    name is bound. *)
Lemma register_already_registered_counterexample :
  registry System render_registered !! "render" = Some 1 ∧
  construct (class_of system_classes 0) [] = Some TypeError ∧
  call_register system_classes 0 "render" [] render_registered
    = Some (Raise TypeError, render_registered).
Proof. split_and!; by vm_compute. Qed.

(** C1, amended. For a call [cls.register(name)] whose instance gets
    created: if [name] is already bound in the registry of [cls]'s kind,
    the call meets [AlreadyRegisteredError] in the manager, prints it
    and returns [False] instead of letting it propagate; the registries
    and every type's [registered_as] are as before, so the first
    registration is intact. A boolean returned by such a call is [True]
    exactly when the name was free. When the constructor raises, the
    registry is not consulted: the exception propagates, unless it is an
    [AlreadyRegisteredError], which is printed and answered with [False]
    in the same way. *)
Theorem register_already_registered ct cls name args σ inst :
  instantiable ct cls args →
  registry (kind (class_of ct cls)) σ !! name = Some inst →
  let k := kind (class_of ct cls) in
  let σ' := emit (PrintExn (AlreadyRegisteredError name k)) σ in
  (∀ fuel, register (S fuel) ct cls name args σ = Some (Ret false, σ')) ∧
  call_register ct cls name args σ = Some (Ret false, σ') ∧
  registry k σ' !! name = Some inst ∧
  components σ' = components σ ∧
  systems σ' = systems σ ∧
  (∀ c, registered_as ct σ' c = registered_as ct σ c) ∧
  trace σ' = (trace σ ++ [PrintExn (AlreadyRegisteredError name k)])%list ∧
  (∀ fuel cls0 name0 args0 σ0 b σ1,
      instantiable ct cls0 args0 →
      register fuel ct cls0 name0 args0 σ0 = Some (Ret b, σ1) →
      b = true ↔ registry (kind (class_of ct cls0)) σ0 !! name0 = None) ∧
  (∀ fuel cls0 name0 args0 σ0 e,
      construct (class_of ct cls0) args0 = Some e →
      (kind (class_of ct cls0) = Component → args0 = []) →
      register (S fuel) ct cls0 name0 args0 σ0
        = Some (except_AlreadyRegisteredError (Raise e) σ0)).
Proof.
  intros Hi Hbound k σ'.
  assert (∀ fuel, register (S fuel) ct cls name args σ = Some (Ret false, σ'))
    as H.
  { intros fuel. rewrite register_S by done. cbv zeta. by rewrite Hbound. }
  split_and!.
  - apply H.
  - unfold call_register, register_depth. apply H.
  - subst σ' k. by rewrite registry_emit.
  - done.
  - done.
  - intros c. apply registered_as_emit.
  - done.
  - intros. by eapply register_returns.
  - intros fuel cls0 name0 args0 σ0 e He Ha. simpl. rewrite He.
    destruct (kind (class_of ct cls0)), args0 as [|a l]; try done.
    by specialize (Ha eq_refl).
Qed.

Lemma register_already_registered_witness :
  call_register sample_classes 1 "description" [] description_taken =
    Some (Ret false,
          emit (PrintExn (AlreadyRegisteredError "description" Component))
            description_taken) ∧
  registry Component
    (emit (PrintExn (AlreadyRegisteredError "description" Component))
       description_taken) !! "description" = Some 2 ∧
  registered_as sample_classes
    (emit (PrintExn (AlreadyRegisteredError "description" Component))
       description_taken) 2 = Some "description".
Proof.
  destruct (register_already_registered sample_classes 1 "description" []
              description_taken 2 (conj eq_refl (λ _, eq_refl)) eq_refl)
    as (_ & H & H2 & _ & _ & H3 & _).
  split; [exact H|]. split; [exact H2|]. rewrite H3. reflexivity.
Defined.

(** ** Dependency cycles *)

Lemma truthy_Some name : name ≠ "" → truthy (Some name) = true.
Proof.
  intros Hne. simpl. apply negb_true_iff. by apply String.eqb_neq.
Qed.


Lemma first_registered_bind_name ct d name σ classes :
  d ∉ classes →
  first_registered (bind_name ct d name σ) classes = first_registered σ classes.
Proof.
  induction classes as [|c l IH]; [done|].
  intros [Hc Hl]%not_elem_of_cons. cbn [first_registered].
  pose proof (own_name_bind_name ct d name σ c) as Hn.
  unfold own_name in Hn. rewrite Hn, decide_False by done.
  by rewrite IH.
Qed.

Lemma registered_as_bind_name_self ct cls name σ :
  registered_as ct (bind_name ct cls name σ) cls = Some name.
Proof.
  apply registered_as_own. rewrite own_name_bind_name. by rewrite decide_True.
Qed.

Lemma registered_as_bind_name_other ct d name σ c :
  d ≠ c → d ∉ mro (class_of ct c) →
  registered_as ct (bind_name ct d name σ) c = registered_as ct σ c.
Proof.
  intros Hc Hm. apply first_registered_bind_name.
  by apply not_elem_of_cons.
Qed.

(** C2, as stated, fails: with two classes that name each other in their
    dependency lists and are not registered, [A.register("a")] returns
    [True] at nesting depth two, so it is not the case that the call
    runs out of every bound. *)
Lemma register_cycle_counterexample :
  Base__dependencies cyclic_classes 0 = [1] ∧
  Base__dependencies cyclic_classes 1 = [0] ∧
  dependencies (class_of cyclic_classes 0) = [1] ∧
  dependencies (class_of cyclic_classes 1) = [0] ∧
  registered_as cyclic_classes initial_state 0 = None ∧
  registered_as cyclic_classes initial_state 1 = None ∧
  register 2 cyclic_classes 0 "a" [] initial_state =
    Some (Ret true,
          bind_name cyclic_classes 1 "B"
            (bind_name cyclic_classes 0 "a" initial_state)) ∧
  ¬ (∀ fuel, register fuel cyclic_classes 0 "a" [] initial_state = None).
Proof.
  split_and!; try by vm_compute.
  intros H. specialize (H 2). vm_compute in H. discriminate H.
Qed.

(** C2, amended. For two types [A] and [B] whose dependency lists name
    each other, neither yet registered, [A.register(name)] finishes:
    cycles are neither detected nor rejected, but [A] is bound and named
    before its dependencies are visited, so that, for a free non-empty
    [name] and a free default name of [B], with both instances created
    and [B] not derived from [A], [B] is registered under its default
    name, the loop of [B] finds [A] registered and skips it, and both
    calls return [True]. *)
Theorem register_cycle_returns ct A B name args σ :
  A ≠ B →
  Base__dependencies ct A = [B] →
  Base__dependencies ct B = [A] →
  registered_as ct σ A = None →
  registered_as ct σ B = None →
  (∃ r σ', call_register ct A name args σ = Some (r, σ') ∧
           ∀ fuel, register_depth ct ≤ fuel →
                   register fuel ct A name args σ = Some (r, σ')) ∧
  (∀ dn,
      default_name (class_of ct B) = Some dn →
      name ≠ "" →
      registry (kind (class_of ct A)) σ !! name = None →
      registry (kind (class_of ct B)) (bind_name ct A name σ) !! dn = None →
      instantiable ct A args →
      instantiable ct B [] →
      A ∉ mro (class_of ct B) →
      ∀ fuel,
        register (S (S fuel)) ct A name args σ =
        Some (Ret true, bind_name ct B dn (bind_name ct A name σ))).
Proof.
  intros HAB HdA HdB HA HB. split.
  - destruct (register_total ct A name args σ) as (r & σ' & H).
    exists r, σ'. split; [done|]. intros fuel Hle.
    by eapply register_fuel_le.
  - intros dn Hdn Hname HfreeA HfreeB HiA HiB Hmro fuel.
    rewrite register_S by done. cbv zeta. rewrite HfreeA, HdA.
    cbn [register_dependencies].
    rewrite registered_as_bind_name_other, HB by done.
    cbn [truthy]. rewrite Hdn, register_S by done. cbv zeta.
    rewrite HfreeB, HdB. cbn [register_dependencies].
    rewrite (registered_as_own ct _ A name).
    + by rewrite truthy_Some.
    + rewrite !own_name_bind_name, decide_False, decide_True by done. done.
Qed.

Lemma register_cycle_returns_witness :
  call_register cyclic_classes 0 "a" [] initial_state =
  Some (Ret true,
        bind_name cyclic_classes 1 "B"
          (bind_name cyclic_classes 0 "a" initial_state)).
Proof.
  destruct (register_cycle_returns cyclic_classes 0 1 "a" [] initial_state)
    as [_ H]; [done|reflexivity|reflexivity|reflexivity|reflexivity|].
  unfold call_register, register_depth.
  apply (H "B"); [reflexivity|done|reflexivity|reflexivity| | |].
  - split; [reflexivity|done].
  - split; [reflexivity|done].
  - vm_compute. by intros ?%elem_of_nil.
Defined.

(** ** Registration of the dependencies *)

Lemma nested_refl ct σ : nested ct σ σ.
Proof. split_and!; [apply grows_refl|by left|by left]. Qed.

Lemma nested_emit ct σ ev : nested ct σ (emit ev σ).
Proof.
  split_and!; [apply grows_emit| |by left].
  intros k name c. rewrite registry_emit. by left.
Qed.

Lemma nested_falsy ct σ σ' c :
  nested ct σ σ' →
  truthy (own_name σ' c) = false → truthy (own_name σ c) = false.
Proof.
  intros (_ & _ & Hattr) Hf. destruct (Hattr c) as [<-|(n & Hn & _)]; done.
Qed.

Lemma nested_trans ct σ1 σ2 σ3 :
  nested ct σ1 σ2 → nested ct σ2 σ3 → nested ct σ1 σ3.
Proof.
  intros H12 H23.
  pose proof H12 as (Hg12 & Hreg12 & Hattr12).
  pose proof H23 as (Hg23 & Hreg23 & Hattr23).
  split_and!.
  - by eapply grows_trans.
  - intros k name c H3.
    destruct (Hreg23 _ _ _ H3) as [H2|(-> & Hf & Hd & Ha)].
    + destruct (Hreg12 _ _ _ H2) as [H1|(-> & Hf & Hd & Ha)]; [by left|].
      right. split_and!; try done.
      destruct (Hattr23 c) as [->|(n & _ & Hd' & Ha' & _)]; [done|].
      congruence.
    + right. split_and!; try done. by eapply nested_falsy.
  - intros c.
    destruct (Hattr23 c) as [H3|(n & Hf & Hd & Ha & Hr)].
    + rewrite H3. destruct (Hattr12 c) as [H2|(n & Hf & Hd & Ha & Hr)];
        [by left|].
      right. exists n. split_and!; try done. by eapply grows_lookup.
    + right. exists n. split_and!; try done. by eapply nested_falsy.
Qed.

Lemma nested_bind_name ct σ d name :
  truthy (registered_as ct σ d) = false →
  default_name (class_of ct d) = Some name →
  registry (kind (class_of ct d)) σ !! name = None →
  nested ct σ (bind_name ct d name σ).
Proof.
  intros Hf%registered_as_falsy_own Hd Hfree. split_and!.
  - by apply grows_bind_name.
  - intros k nm c. rewrite registry_bind_name. case_decide as Hk; [|by left].
    rewrite lookup_insert. case_decide as Hnm; [|by left].
    intros [= <-]. subst nm. right.
    rewrite own_name_bind_name, decide_True by done. done.
  - intros c. rewrite own_name_bind_name. case_decide as Hc; [|by left].
    subst c. right. exists name. split_and!; try done.
    rewrite registry_bind_name, decide_True by done. apply lookup_insert_eq.
Qed.

Lemma dependencies_nested fuel ct deps σ r σ' :
  register_dependencies (λ d n, register fuel ct d n []) ct deps σ
    = Some (r, σ') →
  nested ct σ σ'.
Proof.
  apply (dependencies_steps ct (nested ct));
    eauto using nested_refl, nested_trans, nested_emit, nested_bind_name.
Qed.

(** After its own binding, all a call does is nested registration. *)
Lemma register_after_binding fuel ct cls name args σ r σ' :
  register fuel ct cls name args σ = Some (r, σ') →
  instantiable ct cls args →
  registry (kind (class_of ct cls)) σ !! name = None →
  nested ct (bind_name ct cls name σ) σ'.
Proof.
  intros H Hi Hfree. apply (register_steps ct (nested ct)) in H;
    eauto using nested_refl, nested_trans, nested_emit, nested_bind_name.
  destruct H as [(_ & _ & Hn)|[(ev & _ & _ & Hb)|(_ & _ & HP)]]; [done| |done].
  destruct (Hb Hi) as [c Hc]. congruence.
Qed.

Lemma nested_keeps_name ct σ σ' T :
  nested ct σ σ' →
  truthy (own_name σ T) = true →
  own_name σ' T = own_name σ T.
Proof.
  intros (_ & _ & Hattr) Ht. destruct (Hattr T) as [->|(n & Hf & _)]; congruence.
Qed.

(** C3. The dependency list that [register] goes through is
    [cls.__dependencies], which inside [Base] is the attribute
    [_Base__dependencies]; a list declared as [look.py] declares it,
    [dependencies = [Description]], is not that attribute. So
    [Look.register("Look")] returns [True] with nothing done for
    [Description]: it has no name and no entry in the registry. *)
Lemma register_declared_dependency :
  dependencies (class_of declared_classes 0) = [1] ∧
  default_name (class_of declared_classes 1) = Some "description" ∧
  Base__dependencies declared_classes 0 = [] ∧
  call_register declared_classes 0 "Look" [] initial_state =
    Some (Ret true, bind_name declared_classes 0 "Look" initial_state) ∧
  registered_as declared_classes
    (bind_name declared_classes 0 "Look" initial_state) 1 = None ∧
  registry Component (bind_name declared_classes 0 "Look" initial_state)
    = {[ "Look" := 0 ]}.
Proof. split_and!; by vm_compute. Qed.

(** ** The names of the registered types *)















(** ** [setup] *)

Lemma with_record_again name entity :
  with_record name (with_record name entity) = with_record name entity.
Proof.
  unfold with_record. destruct (decide (name ∈ dom entity)) as [Hin|Hin].
  - by rewrite decide_True.
  - rewrite decide_True; [done|]. rewrite dom_insert. set_solver.
Qed.

Lemma with_record_lookup name entity key record :
  entity !! key = Some record → with_record name entity !! key = Some record.
Proof.
  intros Hk. unfold with_record. case_decide as Hin; [done|].
  rewrite lookup_insert_ne; [done|]. intros <-.
  apply Hin, elem_of_dom. eauto.
Qed.

(** The two ways [setup] can go. *)
Lemma setup_cases ct σ cls data entity :
  (truthy (registered_as ct σ cls) = false ∧
   setup ct σ cls data entity =
     (Raise (NotRegisteredError "Component"), entity)) ∨
  (∃ name,
      registered_as ct σ cls = Some name ∧ name ≠ "" ∧
      setup ct σ cls data entity =
        (Ret (with_record name entity), with_record name entity)).
Proof.
  unfold setup. destruct (registered_as ct σ cls) as [name|]; [|by left].
  destruct (truthy (Some name)) eqn:Ht; [|by left].
  right. exists name. split_and!; [done| |done].
  intros ->. done.
Qed.

(** C4. [setup] tests the truth value of [registered_as], not whether it
    is set: for a class whose [registered_as] is the empty name, it
    raises [NotRegisteredError] and leaves the entity as it is, although
    the class is registered. *)
Theorem setup_empty_name_raises ct σ cls data entity :
  registered_as ct σ cls = Some "" →
  setup ct σ cls data entity
    = (Raise (NotRegisteredError "Component"), entity).
Proof. intros H. unfold setup. by rewrite H. Qed.

(** Such a class: [register("")] has returned [True] for it, and its
    name is bound in the registry. *)
Lemma setup_empty_name_raises_witness :
  call_register ∅ 0 "" [] initial_state
    = Some (Ret true, empty_name_registered) ∧
  registry Component empty_name_registered !! "" = Some 0 ∧
  registered_as ∅ empty_name_registered 0 = Some "" ∧
  setup ∅ empty_name_registered 0 ∅ ∅ =
    (Raise (NotRegisteredError "Component"), ∅).
Proof.
  split_and!; [by vm_compute..|].
  apply (setup_empty_name_raises ∅ empty_name_registered 0 ∅ ∅). reflexivity.
Defined.

(** C5. On a registered component type, [setup] returns, a second call
    on its result returns the same entity, and a data record that the
    entity already has, under the registered name or any other, is kept
    as it is. Run twice in a row the call yields what it yields once,
    also when it raises. *)
Theorem setup_idempotent ct σ cls data entity :
  bind (fst (setup ct σ cls data entity)) (λ e, fst (setup ct σ cls data e))
    = fst (setup ct σ cls data entity) ∧
  snd (setup ct σ cls data (snd (setup ct σ cls data entity)))
    = snd (setup ct σ cls data entity) ∧
  (∀ key record,
      entity !! key = Some record →
      snd (setup ct σ cls data entity) !! key = Some record) ∧
  (truthy (registered_as ct σ cls) = true →
   ∃ entity',
     setup ct σ cls data entity = (Ret entity', entity') ∧
     setup ct σ cls data entity' = (Ret entity', entity')).
Proof.
  destruct (setup_cases ct σ cls data entity)
    as [[Hf He]|(name & Hn & Hne & He)].
  - rewrite He. simpl. rewrite He. simpl. split_and!; try done. congruence.
  - destruct (setup_cases ct σ cls data (with_record name entity))
      as [[Hf _]|(name' & Hn' & _ & He')].
    { rewrite Hn, truthy_Some in Hf; done. }
    assert (name' = name) as -> by congruence.
    rewrite with_record_again in He'.
    rewrite He. simpl. rewrite He'. simpl. split_and!; try done.
    + intros key record. apply with_record_lookup.
    + intros _. by eexists.
Qed.

Lemma setup_idempotent_witness :
  ∃ entity',
    setup sample_classes description_registered 1 sample_fields ∅
      = (Ret entity', entity') ∧
    setup sample_classes description_registered 1 sample_fields entity'
      = (Ret entity', entity').
Proof.
  apply (setup_idempotent sample_classes description_registered 1
           sample_fields ∅).
  reflexivity.
Defined.

(** C9. The result of [setup] does not depend on the data record: two
    calls that differ in it only agree, and every record of the entity
    afterwards is one it had before or the empty record inserted under
    the registered name. *)
Theorem setup_ignores_data ct σ cls data1 data2 entity :
  setup ct σ cls data1 entity = setup ct σ cls data2 entity ∧
  (∀ key,
      snd (setup ct σ cls data1 entity) !! key = entity !! key ∨
      (registered_as ct σ cls = Some key ∧ entity !! key = None ∧
       snd (setup ct σ cls data1 entity) !! key = Some ∅)).
Proof.
  split; [done|]. intros key.
  destruct (setup_cases ct σ cls data1 entity)
    as [[Hf ->]|(name & Hn & Hne & ->)]; simpl; [by left|].
  unfold with_record. case_decide as Hin; [by left|].
  destruct (decide (name = key)) as [->|Hk].
  - right. split_and!; [done| |apply lookup_insert_eq].
    by apply not_elem_of_dom.
  - left. by rewrite lookup_insert_ne.
Qed.

(** ** The look action *)





Lemma append_assoc (s1 s2 s3 : string) : (s1 ++ s2) ++ s3 = s1 ++ s2 ++ s3.
Proof.
  induction s1 as [|a s1 IH]; [done|].
  change (String a ((s1 ++ s2) ++ s3) = String a (s1 ++ s2 ++ s3)).
  by rewrite IH.
Qed.

Lemma append_empty_r (s : string) : s ++ "" = s.
Proof.
  induction s as [|a s IH]; [done|].
  change (String a (s ++ "") = String a s). by rewrite IH.
Qed.

(** The follow-up commands that are triggered are those up to the first
    that fails, and the outcome is that failure. *)
Lemma run_commands_trace controller commands σ :
  fst (LookAction.run_commands controller commands σ)
    = match first_failure controller commands with
      | None => Ret tt
      | Some e => Raise e
      end ∧
  trace (snd (LookAction.run_commands controller commands σ))
    = (trace σ ++ (RunCommand <$> attempted controller commands))%list ∧
  components (snd (LookAction.run_commands controller commands σ))
    = components σ ∧
  systems (snd (LookAction.run_commands controller commands σ)) = systems σ ∧
  registered_name (snd (LookAction.run_commands controller commands σ))
    = registered_name σ.
Proof.
  revert σ. induction commands as [|c cs IH]; intros σ; simpl.
  - by rewrite app_nil_r.
  - destruct (controller c) as [e|]; simpl.
    + done.
    + destruct (IH (emit (RunCommand c) σ)) as (H1 & H2 & H3 & H4 & H5).
      rewrite H1, H2, H3, H4, H5. simpl. by rewrite <-app_assoc.
Qed.

Lemma attempted_all controller commands :
  first_failure controller commands = None ↔
  Forall (λ command, controller command = None) commands.
Proof.
  induction commands as [|c cs IH]; simpl; [done|].
  rewrite Forall_cons. destruct (controller c) as [e|];
    [|rewrite IH; split; [by intros ?|by intros [_ ?]]].
  split; [done|by intros [? _]].
Qed.

Lemma attempted_commands controller commands :
  first_failure controller commands = None →
  attempted controller commands = commands.
Proof.
  induction commands as [|c cs IH]; simpl; [done|].
  destruct (controller c) as [e|]; [done|]. intros H. by rewrite IH.
Qed.

Lemma attempted_until controller commands e :
  first_failure controller commands = Some e →
  ∃ before command after,
    commands = (before ++ command :: after)%list ∧
    Forall (λ c, controller c = None) before ∧
    controller command = Some e ∧
    attempted controller commands = (before ++ [command])%list.
Proof.
  induction commands as [|c cs IH]; simpl; [done|].
  destruct (controller c) as [e'|] eqn:Hc.
  - intros [= ->]. by exists [], c, cs.
  - intros (before & command & after & -> & Hb & Hf & ->)%IH.
    exists (c :: before), command, after. split_and!; try done.
    by apply Forall_cons.
Qed.

(** C8, as stated, fails. A target that carries the description
    component need not have both fields: for one without a description
    text [execute] raises [AttributeError] and prints nothing. And a
    follow-up command that fails ends the action: the commands after it
    are not triggered. *)
Lemma execute_look_counterexample :
  carries terse_entity "description" ∧
  LookAction.execute sample_classes 1
    (LookAction.__init__ obliging bare_entity terse_entity
       (Some ["open"; "close"])) description_registered
    = (Raise (AttributeError "desc"), description_registered) ∧
  carries described_entity "description" ∧
  fst (LookAction.execute sample_classes 1
         (LookAction.__init__ stuck bare_entity described_entity
            (Some ["open"; "close"])) description_registered)
    = Raise (OtherError "stuck") ∧
  trace (snd (LookAction.execute sample_classes 1
                (LookAction.__init__ stuck bare_entity described_entity
                   (Some ["open"; "close"])) description_registered))
    = [PrintStr (LookAction.message "a chest" "It is locked.");
       RunCommand "open"].
Proof.
  split_and!; try by vm_compute.
  - by exists {[ 6 := {[ "view_name" := "a door" ]} ]},
              {[ "view_name" := "a door" ]}.
  - by exists {[ 7 := sample_fields ]}, sample_fields.
Qed.

(** C8, amended. Let the target carry, with the data [data], the
    component [Description] is registered as. If the data has no
    [view_name], or has one and no [desc], [execute] raises
    [AttributeError] and does nothing. Otherwise it prints one message,
    which contains the view name and the description text, and then
    triggers the follow-up commands in the order given, up to and
    including the first that fails: if none fails, all of them are
    triggered and [execute] returns; if one fails, its exception is
    raised and the commands after it are not triggered. Nothing else
    happens. *)
Theorem execute_look ct Description σ controller agent target commands data :
  description_data ct Description σ target = Some data →
  match data !! "view_name", data !! "desc" with
  | Some view_name, Some desc =>
      ∃ σ',
        LookAction.execute ct Description
          (LookAction.__init__ controller agent target (Some commands)) σ
          = (match first_failure controller commands with
             | None => Ret tt
             | Some e => Raise e
             end, σ') ∧
        trace σ' =
          (trace σ ++ PrintStr (LookAction.message view_name desc)
                   :: (RunCommand <$> attempted controller commands))%list ∧
        contains (LookAction.message view_name desc) view_name ∧
        contains (LookAction.message view_name desc) desc ∧
        (first_failure controller commands = None →
         attempted controller commands = commands) ∧
        (∀ e, first_failure controller commands = Some e →
              ∃ before command after,
                commands = (before ++ command :: after)%list ∧
                Forall (λ c, controller c = None) before ∧
                controller command = Some e ∧
                attempted controller commands = (before ++ [command])%list) ∧
        components σ' = components σ ∧ systems σ' = systems σ ∧
        registered_name σ' = registered_name σ
  | None, _ =>
      LookAction.execute ct Description
        (LookAction.__init__ controller agent target (Some commands)) σ
        = (Raise (AttributeError "view_name"), σ)
  | Some _, None =>
      LookAction.execute ct Description
        (LookAction.__init__ controller agent target (Some commands)) σ
        = (Raise (AttributeError "desc"), σ)
  end.
Proof.
  unfold description_data. intros Hdata.
  destruct (registered_as ct σ Description) as [name|] eqn:Hn; [|done].
  simpl in Hdata.
  destruct (entity_attributes target !! name) eqn:Ha; [done|].
  destruct (world_components target !! name) as [component|] eqn:Hw; [|done].
  simpl in Hdata.
  unfold LookAction.execute, getattr.
  rewrite Hn. simpl. rewrite Ha, Hw.
  unfold attribute_field, accessor_field, accessor_data. simpl.
  rewrite Hdata. simpl.
  destruct (data !! "view_name") as [view_name|]; [|done].
  destruct (data !! "desc") as [desc|]; [|done].
  unfold LookAction.Base_execute. simpl.
  pose proof (run_commands_trace controller commands
                (emit (PrintStr (LookAction.message view_name desc)) σ))
    as (Hr & Ht & Hc & Hs & Hrn).
  destruct (LookAction.run_commands controller commands _) as [r σ'].
  simpl in *. exists σ'. subst r.
  split_and!; try done.
  - by rewrite Ht, <-app_assoc.
  - by exists "You see ", (". " ++ newline ++ desc).
  - exists ("You see " ++ view_name ++ ". " ++ newline), "".
    unfold LookAction.message. by rewrite append_empty_r, !append_assoc.
  - apply attempted_commands.
  - apply attempted_until.
Qed.

Lemma execute_look_witness :
  ∃ σ',
    LookAction.execute sample_classes 1
      (LookAction.__init__ obliging bare_entity described_entity
         (Some ["open"; "close"])) description_registered = (Ret tt, σ') ∧
    trace σ' =
      [PrintStr (LookAction.message "a chest" "It is locked.");
       RunCommand "open"; RunCommand "close"].
Proof.
  destruct (execute_look sample_classes 1 description_registered obliging
              bare_entity described_entity ["open"; "close"] sample_fields
              eq_refl) as (σ' & H & Ht & _).
  exists σ'. split; [exact H|exact Ht].
Defined.

(** ** The game scene listener *)

Section Listener.

Import GameSceneListener.

Variable getEventManager : Value → Value.
Variable new_IMouseListener : Value.

Lemma call_keeps_attribute c self :
  call c self !! outline_ignore_attribute = self !! outline_ignore_attribute.
Proof. destruct c; simpl; try done; by rewrite lookup_insert_ne. Qed.

Lemma calls_keep_attribute cs self :
  calls cs self !! outline_ignore_attribute = self !! outline_ignore_attribute.
Proof.
  revert self. induction cs as [|c cs IH]; intros self; [done|].
  simpl. fold (calls cs (call c self)). by rewrite IH, call_keeps_attribute.
Qed.

(** C10. Whatever the arguments of the constructor, and whatever the
    program has done with the listener since, reading [outline_ignore]
    raises [AttributeError]: the attribute the getter reads is assigned
    nowhere. *)
Theorem outline_ignore_raises engine gamecontroller cs :
  outline_ignore
    (calls cs (__init__ getEventManager new_IMouseListener engine gamecontroller))
  = Raise (AttributeError outline_ignore_attribute).
Proof.
  unfold outline_ignore. rewrite calls_keep_attribute.
  unfold __init__, IMouseListener__init__.
  by rewrite !lookup_insert_ne, lookup_empty.
Qed.

End Listener.

(** * Further properties of the code *)

(** ** [register]: what a call leaves behind *)







(** X2. A call of [register] finishes for every program and state: the
    nesting depth [2 + number of classes] always suffices, and any larger
    bound gives the same outcome. *)
Theorem register_always_finishes ct cls name args σ :
  ∃ r σ',
    ∀ fuel : nat,
      register_depth ct ≤ fuel →
      register fuel ct cls name args σ = Some (r, σ').
Proof.
  destruct (register_total ct cls name args σ) as (r & σ' & H).
  exists r, σ'. intros fuel Hle. by eapply register_fuel_le.
Qed.





(** ** [register]: later calls *)

(** A call that has created its instance leaves the name bound. *)
Lemma register_binds fuel ct cls name args σ r σ' :
  register fuel ct cls name args σ = Some (r, σ') →
  instantiable ct cls args →
  is_Some (registry (kind (class_of ct cls)) σ' !! name).
Proof.
  intros H Hi. apply (register_steps ct grows) in H;
    eauto using grows_refl, grows_trans, grows_emit, grows_bind_name.
  destruct H as [(_ & _ & ?)|[(ev & -> & _ & Hb)|(_ & Hfree & Hg)]]; [done| |].
  - rewrite registry_emit. auto.
  - exists cls. eapply grows_lookup; [done|].
    rewrite registry_bind_name, decide_True by done. apply lookup_insert_eq.
Qed.

(** X5. Registration and set-up compose: once [C.register(name)] has
    returned [True] for a non-empty [name], [C.setup(data, entity)]
    succeeds on every entity record and the record has the key [name]
    afterwards. *)
Theorem register_then_setup fuel ct cls name args σ σ' data entity :
  register fuel ct cls name args σ = Some (Ret true, σ') →
  name ≠ "" →
  registered_as ct σ' cls = Some name ∧
  setup ct σ' cls data entity
    = (Ret (with_record name entity), with_record name entity) ∧
  is_Some (with_record name entity !! name).
Proof.
  intros H Hne.
  destruct (register_True _ _ _ _ _ _ _ H) as [Hi Hfree].
  assert (registered_as ct σ' cls = Some name) as Hn.
  { apply registered_as_own.
    rewrite (nested_keeps_name _ _ _ _
               (register_after_binding _ _ _ _ _ _ _ _ H Hi Hfree));
      rewrite own_name_bind_name, decide_True by done;
      [done|by apply truthy_Some]. }
  split_and!; [done| |].
  - unfold setup, with_record. by rewrite Hn, truthy_Some.
  - unfold with_record. case_decide as Hin.
    + by apply elem_of_dom.
    + rewrite lookup_insert_eq. by eexists.
Qed.

Lemma register_then_setup_witness :
  call_register sample_classes 1 "description" [] initial_state
    = Some (Ret true, bind_name sample_classes 1 "description" initial_state) ∧
  fst (setup sample_classes
         (bind_name sample_classes 1 "description" initial_state) 1
         sample_fields ∅)
    = Ret {[ "description" := ∅ ]}.
Proof.
  split; [reflexivity|].
  destruct (register_then_setup (register_depth sample_classes) sample_classes
              1 "description" [] initial_state
              (bind_name sample_classes 1 "description" initial_state)
              sample_fields ∅ eq_refl) as (_ & H & _); [done|].
  rewrite H. reflexivity.
Defined.

(** X6. A name stays taken: after a call [T.register(name)] that has
    created its instance, whether it then returned [True], returned
    [False] or raised, the name is bound, no later [U.register(name)] of
    a type of the same kind returns [True], and such a call that creates
    its instance returns [False] and changes nothing but the printed
    output. *)
Theorem register_name_stays_taken fuel ct cls name args σ r σ' cls2 args2
    fuel2 :
  register fuel ct cls name args σ = Some (r, σ') →
  instantiable ct cls args →
  kind (class_of ct cls2) = kind (class_of ct cls) →
  is_Some (registry (kind (class_of ct cls)) σ' !! name) ∧
  (∀ r2 σ2, register fuel2 ct cls2 name args2 σ' = Some (r2, σ2) →
            r2 ≠ Ret true) ∧
  (instantiable ct cls2 args2 →
   register (S fuel2) ct cls2 name args2 σ' =
     Some (Ret false,
           emit (PrintExn
                   (AlreadyRegisteredError name (kind (class_of ct cls))))
             σ')).
Proof.
  intros H Hi Hk. destruct (register_binds _ _ _ _ _ _ _ _ H Hi) as [c Hc].
  split_and!; [by eexists| |].
  - intros r2 σ2 H2 ->. apply register_True in H2 as [_ Hfree].
    rewrite Hk in Hfree. congruence.
  - intros Hi2. rewrite register_S by done. cbv zeta. by rewrite Hk, Hc.
Qed.

Lemma register_name_stays_taken_witness :
  ∃ σ',
    call_register sample_classes 1 "description" [] initial_state
      = Some (Ret true, σ') ∧
    call_register sample_classes 2 "description" [] σ'
      = Some (Ret false,
              emit (PrintExn (AlreadyRegisteredError "description" Component)) σ').
Proof.
  eexists. split; [by vm_compute|].
  apply (register_name_stays_taken (register_depth sample_classes)
           sample_classes 1 "description" [] initial_state (Ret true) _ 2 []);
    [reflexivity|by split|reflexivity|by split].
Defined.

(** X7. Registering a type does not touch the name of any other type
    that has a non-empty name of its own: the name assigned on it and
    the name read as its [registered_as] are the same after the call,
    whatever the outcome and whatever the dependency lists. *)
Theorem register_keeps_other_names fuel ct cls name args σ r σ' T :
  register fuel ct cls name args σ = Some (r, σ') →
  T ≠ cls →
  truthy (own_name σ T) = true →
  own_name σ' T = own_name σ T ∧
  registered_as ct σ' T = registered_as ct σ T.
Proof.
  intros H HT Ht.
  assert (own_name σ' T = own_name σ T) as Ho.
  { pose proof H as H'. apply (register_steps ct (nested ct)) in H';
      eauto using nested_refl, nested_trans, nested_emit, nested_bind_name.
    destruct H' as [(-> & _)|[(ev & -> & _)|(_ & Hfree & Hn)]]; [done|done|].
    rewrite (nested_keeps_name _ _ _ _ Hn);
      rewrite own_name_bind_name, decide_False by done; done. }
  split; [done|].
  destruct (own_name σ T) as [n|] eqn:Hn; [|done].
  rewrite (registered_as_own ct σ' T n), (registered_as_own ct σ T n); done.
Qed.

Lemma register_keeps_other_names_witness :
  call_register sample_classes 0 "Look" [] description_taken
    = Some (Ret true,
            emit (PrintExn (AlreadyRegisteredError "description" Component))
              (bind_name sample_classes 0 "Look" description_taken)) ∧
  registered_as sample_classes
    (emit (PrintExn (AlreadyRegisteredError "description" Component))
       (bind_name sample_classes 0 "Look" description_taken)) 2
    = Some "description".
Proof.
  split; [reflexivity|].
  exact (proj2 (register_keeps_other_names (register_depth sample_classes)
           sample_classes 0 "Look" [] description_taken (Ret true)
           (emit (PrintExn (AlreadyRegisteredError "description" Component))
              (bind_name sample_classes 0 "Look" description_taken))
           2 eq_refl (ltac:(done)) eq_refl)).
Defined.

(** ** [setup]: order of the components *)

Lemma with_record_dom c d (entity : EntityDict) :
  c ≠ d → c ∈ dom (with_record d entity) ↔ c ∈ dom entity.
Proof.
  intros Hcd. unfold with_record. case_decide; [done|].
  rewrite dom_insert, elem_of_union, elem_of_singleton. tauto.
Qed.

Lemma with_record_commute a b (entity : EntityDict) :
  with_record a (with_record b entity) = with_record b (with_record a entity).
Proof.
  destruct (decide (a = b)) as [->|Hab]; [done|].
  unfold with_record at 1 3.
  destruct (decide (a ∈ dom (with_record b entity))) as [Ha|Ha],
           (decide (b ∈ dom (with_record a entity))) as [Hb|Hb];
    rewrite with_record_dom in Ha, Hb by done; unfold with_record;
    rewrite ?(decide_True _ _ Ha), ?(decide_False _ _ Ha),
            ?(decide_True _ _ Hb), ?(decide_False _ _ Hb); try done.
  apply insert_insert_ne. congruence.
Qed.

(** X8. Setting up an entity for two registered components gives the
    same record in either order. *)
Theorem setup_commutes ct σ A B dataA dataB entity :
  truthy (registered_as ct σ A) = true →
  truthy (registered_as ct σ B) = true →
  ∃ entity',
    bind (fst (setup ct σ A dataA entity)) (λ e, fst (setup ct σ B dataB e))
      = Ret entity' ∧
    bind (fst (setup ct σ B dataB entity)) (λ e, fst (setup ct σ A dataA e))
      = Ret entity'.
Proof.
  intros HA HB.
  assert (∀ cls d e, truthy (registered_as ct σ cls) = true →
            ∃ n, registered_as ct σ cls = Some n ∧
                 setup ct σ cls d e
                   = (Ret (with_record n e), with_record n e))
    as Hs.
  { intros cls d e Ht.
    destruct (setup_cases ct σ cls d e) as [[Hf _]|(n & Hn & _ & He)];
      [congruence|by eauto]. }
  destruct (Hs A dataA entity HA) as (a & Ha & HeA).
  destruct (Hs B dataB entity HB) as (b & Hb & HeB).
  destruct (Hs B dataB (with_record a entity) HB) as (b' & Hb' & HeB').
  destruct (Hs A dataA (with_record b entity) HA) as (a' & Ha' & HeA').
  assert (a' = a) as -> by congruence. assert (b' = b) as -> by congruence.
  exists (with_record b (with_record a entity)).
  rewrite HeA, HeB. simpl. rewrite HeA', HeB'. simpl.
  by rewrite with_record_commute.
Qed.

Lemma setup_commutes_witness :
  ∃ entity',
    bind (fst (setup sample_classes look_registered 0 ∅ ∅))
         (λ e, fst (setup sample_classes look_registered 1 sample_fields e))
      = Ret entity' ∧
    bind (fst (setup sample_classes look_registered 1 sample_fields ∅))
         (λ e, fst (setup sample_classes look_registered 0 ∅ e))
      = Ret entity'.
Proof. apply setup_commutes; reflexivity. Defined.

(** ** The look action: failure *)

(** X9. [execute] on a target that [check_target] does not accept has
    no effect at all: if [check_target] returns [False], [execute] raises
    [AttributeError] on reading [view_name]; if [check_target] raises,
    [execute] raises the same exception; in both cases nothing is printed
    and no follow-up command is triggered. Conversely an [execute] that
    has any effect had a target that [check_target] accepts: it has
    printed one message and then triggered the follow-up commands up to
    and including the first that fails, whose exception it raises; and an
    [execute] that returns has triggered them all. *)
Theorem execute_all_or_nothing ct Description self σ :
  (LookAction.check_target ct Description σ (LookAction.target self)
     = Ret false →
   LookAction.execute ct Description self σ
     = (Raise (AttributeError "view_name"), σ)) ∧
  (∀ e, LookAction.check_target ct Description σ (LookAction.target self)
          = Raise e →
        LookAction.execute ct Description self σ = (Raise e, σ)) ∧
  (∀ r σ',
      LookAction.execute ct Description self σ = (r, σ') →
      σ' = σ ∧ (∃ e, r = Raise e) ∨
      LookAction.check_target ct Description σ (LookAction.target self)
        = Ret true ∧
      r = match first_failure (LookAction.controller self)
                  (LookAction.commands self) with
          | None => Ret tt
          | Some e => Raise e
          end ∧
      ∃ view_name desc,
        trace σ' =
          (trace σ ++ PrintStr (LookAction.message view_name desc)
                   :: (RunCommand <$>
                         attempted (LookAction.controller self)
                           (LookAction.commands self)))%list) ∧
  (∀ σ', LookAction.execute ct Description self σ = (Ret tt, σ') →
         LookAction.check_target ct Description σ (LookAction.target self)
           = Ret true ∧
         ∃ view_name desc,
           trace σ' =
             (trace σ ++ PrintStr (LookAction.message view_name desc)
                      :: (RunCommand <$> LookAction.commands self))%list).
Proof.
  assert (∀ r σ',
      LookAction.execute ct Description self σ = (r, σ') →
      σ' = σ ∧ (∃ e, r = Raise e) ∨
      LookAction.check_target ct Description σ (LookAction.target self)
        = Ret true ∧
      r = match first_failure (LookAction.controller self)
                  (LookAction.commands self) with
          | None => Ret tt
          | Some e => Raise e
          end ∧
      ∃ view_name desc,
        trace σ' =
          (trace σ ++ PrintStr (LookAction.message view_name desc)
                   :: (RunCommand <$>
                         attempted (LookAction.controller self)
                           (LookAction.commands self)))%list) as Hany.
  { unfold LookAction.execute, LookAction.check_target. intros r σ'.
    destruct (getattr _ _) as [[truth|a]|e0]; simpl;
      [intros [= <- <-]; left; by eauto| |intros [= <- <-]; left; by eauto].
    unfold accessor_field, accessor_true.
    destruct (accessor_data a) as [data|] eqn:Hdata; simpl;
      [|intros [= <- <-]; left; by eauto].
    destruct (data !! "view_name") as [vn|]; simpl;
      [|intros [= <- <-]; left; by eauto].
    destruct (data !! "desc") as [ds|]; simpl;
      [|intros [= <- <-]; left; by eauto].
    unfold LookAction.Base_execute.
    pose proof (run_commands_trace (LookAction.controller self)
                  (LookAction.commands self)
                  (emit (PrintStr (LookAction.message vn ds)) σ))
      as (Hr & Ht & _).
    intros He. rewrite He in Hr, Ht. simpl in Hr, Ht. right.
    split_and!; [done|done|]. exists vn, ds. by rewrite Ht, <-app_assoc. }
  split_and!; [| |done|].
  - unfold LookAction.execute, LookAction.check_target.
    destruct (getattr _ _) as [[truth|a]|e0]; simpl; [by destruct truth| |done].
    unfold accessor_field, accessor_true.
    by destruct (accessor_data a) as [data|] eqn:Hdata.
  - unfold LookAction.execute, LookAction.check_target.
    destruct (getattr _ _) as [[truth|a]|e0]; simpl;
      [by destruct truth| |by intros e [= ->]].
    by destruct (accessor_true a).
  - intros σ' He. destruct (Hany _ _ He) as [(_ & e & ?)|(Hc & Hr & vn & ds & Ht)];
      [done|].
    split; [done|]. exists vn, ds. rewrite Ht.
    rewrite attempted_commands; [done|].
    by destruct (first_failure _ _).
Qed.

Lemma execute_all_or_nothing_witness :
  LookAction.execute sample_classes 1
    (LookAction.__init__ obliging bare_entity undescribed_entity
       (Some ["open"]))
    description_registered
  = (Raise (AttributeError "view_name"), description_registered).
Proof.
  destruct (execute_all_or_nothing sample_classes 1
              (LookAction.__init__ obliging bare_entity undescribed_entity
                 (Some ["open"]))
              description_registered) as (H & _).
  apply H. reflexivity.
Defined.

(** ** The outliner *)

Lemma or_else_nil {A} (x : option (list A)) : or_else x [] = default [] x.
Proof. by destruct x as [[|a l]|]. Qed.

(** X10. An outliner built by the constructor ignores exactly the
    identifiers it was given (none for [None]), also when they are read
    through the property [outline_ignore]; its outline data is never
    empty (the white outline of width one stands in for [None] and for
    an empty tuple), so [get_data] returns [None] for the ignored
    identifiers and for no other, and the outline data for the others. *)
Theorem get_data_ignored outline_data outline_ignore world identifier :
  SimpleOutliner.outline_ignore
    (SimpleOutliner.__init__ outline_data outline_ignore)
    = default [] outline_ignore ∧
  SimpleOutliner.outline_data
    (SimpleOutliner.__init__ outline_data outline_ignore) ≠ [] ∧
  (SimpleOutliner.get_data
     (SimpleOutliner.__init__ outline_data outline_ignore) world identifier
     = None ↔
   identifier ∈ default [] outline_ignore) ∧
  (identifier ∉ default [] outline_ignore →
   SimpleOutliner.get_data
     (SimpleOutliner.__init__ outline_data outline_ignore) world identifier
     = Some (or_else outline_data [255; 255; 255; 1])).
Proof.
  unfold SimpleOutliner.get_data, SimpleOutliner.outline_ignore. simpl.
  rewrite or_else_nil. split_and!.
  - done.
  - by destruct outline_data as [[|a l]|].
  - case_decide; split; done.
  - intros Hn. by rewrite decide_False.
Qed.

Lemma get_data_ignored_witness :
  SimpleOutliner.get_data (SimpleOutliner.__init__ (Some []) (Some ["wall"]))
    GameSceneListener.PyNone "chest"
  = Some [255; 255; 255; 1].
Proof.
  apply (get_data_ignored (Some []) (Some ["wall"]) GameSceneListener.PyNone
           "chest").
  simpl. intros H. apply list_elem_of_singleton in H. discriminate H.
Defined.

(** ** The listener and the mouse *)

Section Scene.

Import GameSceneListener GameScene.

Variable getEventManager : Value → Value.
Variable new_IMouseListener : Value.

(** The loop makes one call for each instance that has outline data,
    in the order of the instances. *)
Lemma outline_instances_omap renderer outliner world actor_instances :
  outline_instances renderer outliner world actor_instances =
  omap (λ instance,
          addOutlined renderer instance
            <$> get_data outliner world (getId instance))
       actor_instances.
Proof.
  induction actor_instances as [|i l IH]; [done|].
  cbn [outline_instances omap list_omap].
  destruct (get_data outliner world (getId i)) as [d|]; simpl; by rewrite IH.
Qed.

Lemma calls_is_outlined cs self :
  Forall (λ c, c ≠ set_is_outlined true) cs →
  self !! "is_outlined" = Some (PyBool false) →
  calls cs self !! "is_outlined" = Some (PyBool false).
Proof.
  intros Hcs. revert self. induction Hcs as [|c cs Hc _ IH]; intros self Hs;
    [done|].
  simpl. fold (calls cs (call c self)). apply IH.
  destruct c as [| | | | | | | |v|[]]; simpl; try done.
  - by rewrite lookup_insert_ne.
  - apply lookup_insert_eq.
Qed.

(** X11. Outlining is off until it is switched on: on a listener as the
    constructor leaves it, and after any calls other than
    [is_outlined = True], a mouse move makes no call to the renderer,
    whatever the scene and the position. *)
Theorem mouseMoved_not_outlined scene engine gamecontroller cs event :
  Forall (λ c, c ≠ set_is_outlined true) cs →
  mouseMoved scene
    (calls cs
       (GameSceneListener.__init__ getEventManager new_IMouseListener engine
          gamecontroller))
    event
  = Ret [].
Proof.
  intros Hcs. unfold mouseMoved.
  by rewrite (calls_is_outlined _ _ Hcs).
Qed.

(** X12. A mouse move never outlines without clearing first, and never
    outlines anything but what the outliner of the listener's controller
    returns data for: the calls it makes are none, or
    [removeAllOutlines] followed by exactly one [addOutlined] for each
    instance under the mouse on the layer ["actors"] for which
    [get_data] returns data, with that data and in the order of the
    instances, and by nothing else. *)
Theorem mouseMoved_clears_first scene self event engine_calls :
  mouseMoved scene self event = Ret engine_calls →
  engine_calls = [] ∨
  ∃ handle controller game_map,
    self !! "gamecontroller" = Some (PyObject handle) ∧
    controllers scene !! handle = Some controller ∧
    current_map (application controller) = Some game_map ∧
    engine_calls =
      removeAllOutlines (camera game_map)
        :: omap (λ instance,
                   addOutlined (camera game_map) instance
                     <$> get_data (outliner controller)
                           (world (application controller)) (getId instance))
             (get_instances_at game_map event (get_layer game_map "actors")).
Proof.
  unfold mouseMoved.
  destruct (self !! "is_outlined") as [v|]; [|done].
  destruct (is_true v); [|intros [= <-]; by left].
  destruct (self !! "gamecontroller") as [[| |h]|] eqn:Hg;
    [intros [= <-]; by left|done| |done].
  destruct (controllers scene !! h) as [c|] eqn:Hc; [|done].
  destruct (current_map (application c)) as [m|] eqn:Hm;
    [|intros [= <-]; by left].
  intros [= <-]. right. exists h, c, m. split_and!; try done.
  by rewrite outline_instances_omap.
Qed.

Lemma outline_instances_simple renderer outline_data outline_ignore world
    actor_instances :
  outline_instances renderer
    (simple (SimpleOutliner.__init__ outline_data outline_ignore)) world
    actor_instances
  = (λ instance,
       addOutlined renderer instance (or_else outline_data [255; 255; 255; 1]))
      <$> filter (λ instance, getId instance ∉ default [] outline_ignore)
            actor_instances.
Proof.
  induction actor_instances as [|i l IH]; [done|].
  cbn [outline_instances get_data].
  unfold SimpleOutliner.get_data, SimpleOutliner.outline_ignore.
  cbn [SimpleOutliner.__init__ SimpleOutliner._SimpleOutliner__outline_ignore
       SimpleOutliner.outline_data].
  rewrite or_else_nil, filter_cons. case_decide as Hin.
  - rewrite decide_False by (by intros ?). apply IH.
  - rewrite decide_True by done. rewrite fmap_cons. f_equal. apply IH.
Qed.

(** X13. With a [SimpleOutliner], a listener that outlines and whose
    controller shows a map clears the outlines and then outlines, in
    their order and all with the outline data of the outliner, exactly
    the instances under the mouse whose identifier is not in the ignore
    list. *)
Theorem mouseMoved_simple_outliner scene self event is_outlined handle
    controller game_map outline_data outline_ignore :
  self !! "is_outlined" = Some is_outlined →
  is_true is_outlined = true →
  self !! "gamecontroller" = Some (PyObject handle) →
  controllers scene !! handle = Some controller →
  outliner controller
    = simple (SimpleOutliner.__init__ outline_data outline_ignore) →
  current_map (application controller) = Some game_map →
  mouseMoved scene self event =
    Ret (removeAllOutlines (camera game_map)
           :: ((λ instance,
                  addOutlined (camera game_map) instance
                    (or_else outline_data [255; 255; 255; 1]))
                 <$> filter (λ instance,
                               getId instance ∉ default [] outline_ignore)
                       (get_instances_at game_map event
                          (get_layer game_map "actors")))).
Proof.
  intros Ho Ht Hg Hc Hout Hm. unfold mouseMoved.
  rewrite Ho, Ht, Hg, Hc, Hm, Hout. by rewrite outline_instances_simple.
Qed.

End Scene.

Lemma mouseMoved_not_outlined_witness :
  GameScene.mouseMoved sample_scene
    (GameSceneListener.calls
       [GameSceneListener.activate; GameSceneListener.mouseMoved]
       (GameSceneListener.__init__ (λ _, GameSceneListener.PyObject 12)
          (GameSceneListener.PyObject 13) (GameSceneListener.PyObject 11)
          (Some (GameSceneListener.PyObject 20))))
    (3, 4)%Z
  = Ret [].
Proof.
  apply mouseMoved_not_outlined. repeat constructor; discriminate.
Defined.

Lemma mouseMoved_clears_first_witness :
  ∃ controller game_map,
    GameScene.controllers sample_scene !! 20 = Some controller ∧
    GameScene.current_map (GameScene.application controller) = Some game_map ∧
    [GameScene.removeAllOutlines 5;
     GameScene.addOutlined 5
       {| GameScene.getId := "player"; GameScene.instance_handle := 1 |}
       [255; 255; 255; 1];
     GameScene.addOutlined 5
       {| GameScene.getId := "chest"; GameScene.instance_handle := 2 |}
       [255; 255; 255; 1]]
    = GameScene.removeAllOutlines (GameScene.camera game_map)
        :: omap (λ instance,
                   GameScene.addOutlined (GameScene.camera game_map) instance
                     <$> GameScene.get_data (GameScene.outliner controller)
                           (GameScene.world (GameScene.application controller))
                           (GameScene.getId instance))
             (GameScene.get_instances_at game_map (3, 4)%Z
                (GameScene.get_layer game_map "actors")).
Proof.
  destruct (mouseMoved_clears_first sample_scene
              (GameSceneListener.call (GameSceneListener.set_is_outlined true)
                 (GameSceneListener.__init__ (λ _, GameSceneListener.PyObject 12)
                    (GameSceneListener.PyObject 13) (GameSceneListener.PyObject 11)
                    (Some (GameSceneListener.PyObject 20))))
              (3, 4)%Z _ eq_refl)
    as [H|(handle & controller & game_map & Hg & Hc & Hm & He)];
    [discriminate H|].
  injection Hg as <-. by exists controller, game_map.
Defined.

Lemma mouseMoved_simple_outliner_witness :
  GameScene.mouseMoved sample_scene
    (GameSceneListener.call (GameSceneListener.set_is_outlined true)
       (GameSceneListener.__init__ (λ _, GameSceneListener.PyObject 12)
          (GameSceneListener.PyObject 13) (GameSceneListener.PyObject 11)
          (Some (GameSceneListener.PyObject 20))))
    (3, 4)%Z
  = Ret [GameScene.removeAllOutlines 5;
         GameScene.addOutlined 5
           {| GameScene.getId := "player"; GameScene.instance_handle := 1 |}
           [255; 255; 255; 1];
         GameScene.addOutlined 5
           {| GameScene.getId := "chest"; GameScene.instance_handle := 2 |}
           [255; 255; 255; 1]].
Proof.
  rewrite (mouseMoved_simple_outliner sample_scene _ (3, 4)%Z
             (GameSceneListener.PyBool true) 20
             {| GameScene.view := GameSceneListener.PyObject 14;
                GameScene.application := sample_application;
                GameScene.outliner :=
                  GameScene.simple (SimpleOutliner.__init__ None (Some ["wall"]));
                GameScene.listener := 21 |}
             sample_map None (Some ["wall"]));
    reflexivity.
Defined.

(** ** The controller and its listener *)

Section Controller.

Import GameSceneListener GameScene.

Variable getEventManager : Value → Value.
Variable new_IMouseListener : Value.






End Controller.


